(** * Compute Horde SDK: request signing and job lifecycle

    A shallow embedding of
      - [_compute_horde_models/signature.py]  (signature envelope, canonical
        payload, digest, signer), and
      - [compute_horde_sdk/_internal/sdk.py]  (client requests, job refresh,
        polling wait, feedback, job creation),
      - [compute_horde_sdk/_internal/exceptions.py] (the error classes),
    followed by the properties of the specification, each stated on these
    definitions.

    Conventions.  A Python [str] is a list of Unicode code points, [bytes] a
    list of [Byte.byte], an [int] a [Z], a [float] a rational.  Code that
    reads the clock, talks to the facilitator or raises runs in a state and
    exception monad over an explicit [World]. *)

From Stdlib Require Import ZArith NArith QArith List String Ascii Bool Lia.
From Stdlib Require Import Strings.Byte DecimalString Permutation Sorted Qround Lqa.
Import ListNotations.

Local Open Scope Z_scope.

(* ===================================================================== *)
(** * Python values *)
(* ===================================================================== *)

Module Py.

(** A code point, and [str] as the sequence of its code points. *)
Definition char := N.
Definition str := list char.
Definition bytes := list byte.

(** Literals of the source are ASCII; [lit] reads one. *)
Definition lit (s : string) : str := map N_of_ascii (list_ascii_of_string s).

Definition chr (a : ascii) : char := N_of_ascii a.

Definition char_eqb : char -> char -> bool := N.eqb.

Fixpoint str_eqb (a b : str) : bool :=
  match a, b with
  | [], [] => true
  | x :: a', y :: b' => char_eqb x y && str_eqb a' b'
  | _, _ => false
  end.

(** [a < b] on [str]: lexicographic by code point, a proper prefix first. *)
Fixpoint str_ltb (a b : str) : bool :=
  match a, b with
  | _, [] => false
  | [], _ :: _ => true
  | x :: a', y :: b' =>
      if N.ltb x y then true
      else if N.ltb y x then false
      else str_ltb a' b'
  end.

Definition str_leb (a b : str) : bool := negb (str_ltb b a).

(** [str(n)] for an [int].  CPython refuses an [int] of more than 4300
    digits with [ValueError]; that limit is not modelled, so for a JSON
    payload that holds such an [int] the definitions below give a text where
    [json.dumps] raises.  Status codes and 64-bit timestamps are far below
    it. *)
Definition str_of_int (n : Z) : str := lit (NilZero.string_of_int (Z.to_int n)).

(** [sep.join(parts)]. *)
Fixpoint join (sep : str) (parts : list str) : str :=
  match parts with
  | [] => []
  | [p] => p
  | p :: rest => p ++ sep ++ join sep rest
  end.

(** ASCII classes. *)
Definition in_range (lo hi : ascii) (c : char) : bool :=
  (N_of_ascii lo <=? c)%N && (c <=? N_of_ascii hi)%N.
Definition is_ascii (c : char) : bool := (c <? 128)%N.
Definition ascii_lower (c : char) : bool := in_range "a" "z" c.
Definition ascii_upper (c : char) : bool := in_range "A" "Z" c.
Definition ascii_digit (c : char) : bool := in_range "0" "9" c.
Definition ascii_alnum (c : char) : bool :=
  ascii_lower c || ascii_upper c || ascii_digit c.

Definition byte_of_N (n : N) : byte :=
  match Byte.of_N (n mod 256) with Some b => b | None => x00 end.
Definition byte_of_Z (z : Z) : byte := byte_of_N (Z.to_N (z mod 256)).

(** [n.to_bytes(length, "big")]: the digits of [n] in base 256, most
    significant first; [None] stands for the [OverflowError] raised when [n]
    is negative or does not fit. *)
Fixpoint be_digits (length : nat) (n : Z) : bytes :=
  match length with
  | O => []
  | S k => be_digits k (Z.shiftr n 8) ++ [byte_of_Z (Z.land n 255)]
  end.

Definition int_to_bytes_big (n : Z) (length : nat) : option bytes :=
  if (0 <=? n) && (n <? Z.shiftl 1 (8 * Z.of_nat length))
  then Some (be_digits length n) else None.

(** [s.encode("utf-8")].  A surrogate code point or one past U+10FFFF has
    no encoding: [None] stands for [UnicodeEncodeError]. *)
Definition utf8_char (c : char) : option bytes :=
  let b (n : N) := byte_of_N n in
  if (c <? 128)%N then Some [b c]
  else if (c <? 2048)%N then
    Some [b (192 + N.shiftr c 6); b (128 + N.land c 63)]%N
  else if (55296 <=? c)%N && (c <=? 57343)%N then None
  else if (c <? 65536)%N then
    Some [b (224 + N.shiftr c 12); b (128 + N.land (N.shiftr c 6) 63);
          b (128 + N.land c 63)]%N
  else if (c <? 1114112)%N then
    Some [b (240 + N.shiftr c 18); b (128 + N.land (N.shiftr c 12) 63);
          b (128 + N.land (N.shiftr c 6) 63); b (128 + N.land c 63)]%N
  else None.

Fixpoint encode_utf8 (s : str) : option bytes :=
  match s with
  | [] => Some []
  | c :: s' =>
      match utf8_char c, encode_utf8 s' with
      | Some x, Some y => Some (x ++ y)
      | _, _ => None
      end
  end.

End Py.
Import Py.

(* ===================================================================== *)
(** * JSON values and the two serializers the SDK goes through *)
(* ===================================================================== *)

Module Json.

(** A [dict] keeps its items in insertion order, as Python's does. *)
Definition dict (V : Type) := list (str * V).

#[local] Set Warnings "-register-all".

(** pydantic's [JsonValue]. *)
Inductive JsonValue : Type :=
| JNull
| JBool (b : bool)
| JInt (n : Z)
| JFloat (x : Q)
| JStr (s : str)
| JList (items : list JsonValue)
| JDict (items : list (str * JsonValue)).

Fixpoint dict_get {V} (d : dict V) (k : str) : option V :=
  match d with
  | [] => None
  | (k', v) :: d' => if str_eqb k k' then Some v else dict_get d' k
  end.

(** [d.get(k, default)]. *)
Definition dict_get_default {V} (d : dict V) (k : str) (default : V) : V :=
  match dict_get d k with Some v => v | None => default end.

(** [d[k] = v]: an existing key keeps its place, a new one goes last. *)
Fixpoint dict_set {V} (d : dict V) (k : str) (v : V) : dict V :=
  match d with
  | [] => [(k, v)]
  | (k', v') :: d' => if str_eqb k k' then (k', v) :: d' else (k', v') :: dict_set d' k v
  end.

(** [a == b] on dicts: the same keys with equal values, in any order. *)
Definition dict_eqb {V} (veq : V -> V -> bool) (a b : dict V) : bool :=
  Nat.eqb (List.length a) (List.length b)
  && forallb (fun kv => match dict_get b (fst kv) with
                        | Some v => veq (snd kv) v
                        | None => false
                        end) a.

(** The number a value compares as ([True == 1 == 1.0] in Python). *)
Definition as_number (v : JsonValue) : option Q :=
  match v with
  | JBool b => Some (inject_Z (if b then 1 else 0))
  | JInt n => Some (inject_Z n)
  | JFloat x => Some x
  | _ => None
  end.

Fixpoint json_eqb (a b : JsonValue) {struct a} : bool :=
  match a, b with
  | JNull, JNull => true
  | JStr s, JStr t => str_eqb s t
  | JList xs, JList ys =>
      (fix go (xs ys : list JsonValue) : bool :=
         match xs, ys with
         | [], [] => true
         | x :: xs', y :: ys' => json_eqb x y && go xs' ys'
         | _, _ => false
         end) xs ys
  | JDict xs, JDict ys =>
      Nat.eqb (List.length xs) (List.length ys)
      && (fix go (xs : list (str * JsonValue)) : bool :=
            match xs with
            | [] => true
            | (k, v) :: xs' =>
                match dict_get ys k with
                | Some w => json_eqb v w && go xs'
                | None => false
                end
            end) xs
  | _, _ =>
      match as_number a, as_number b with
      | Some x, Some y => Qeq_bool x y
      | _, _ => false
      end
  end.

(** ** String escaping *)

Definition hex_digit (n : N) : char :=
  if (n <? 10)%N then (48 + n)%N else (87 + n)%N.

(** ['\\u{0:04x}'.format(n)] for [n < 0x10000]. *)
Definition u_escape (n : N) : str :=
  lit "\u" ++ [hex_digit (N.land (N.shiftr n 12) 15); hex_digit (N.land (N.shiftr n 8) 15);
               hex_digit (N.land (N.shiftr n 4) 15); hex_digit (N.land n 15)].

(** The short escapes both serializers share. *)
Definition short_escape (c : char) : option str :=
  if (c =? 34)%N then Some [92; 34]%N
  else if (c =? 92)%N then Some (lit "\\")
  else if (c =? 8)%N then Some (lit "\b")
  else if (c =? 12)%N then Some (lit "\f")
  else if (c =? 10)%N then Some (lit "\n")
  else if (c =? 13)%N then Some (lit "\r")
  else if (c =? 9)%N then Some (lit "\t")
  else None.

(** [json.encoder.py_encode_basestring_ascii]: everything outside the
    printable ASCII range, the quote and the backslash is escaped; a code point
    past U+FFFF becomes a surrogate pair. *)
Definition ascii_escape_char (c : char) : str :=
  match short_escape c with
  | Some e => e
  | None =>
      if (32 <=? c)%N && (c <=? 126)%N then [c]
      else if (c <? 65536)%N then u_escape c
      else
        let n := (c - 65536)%N in
        u_escape (N.lor 55296 (N.land (N.shiftr n 10) 1023))
        ++ u_escape (N.lor 56320 (N.land n 1023))
  end.

Definition py_encode_basestring_ascii (s : str) : str :=
  [34%N] ++ flat_map ascii_escape_char s ++ [34%N].

(** The string writer under pydantic's [model_dump_json] (serde_json): the
    quote, the backslash and the control characters are escaped, every other
    code point is written as it is. *)
Definition serde_escape_char (c : char) : str :=
  match short_escape c with
  | Some e => e
  | None => if (c <? 32)%N then u_escape c else [c]
  end.

Definition serde_format_escaped_str (s : str) : str :=
  [34%N] ++ flat_map serde_escape_char s ++ [34%N].

(** ** The writer *)

(** What distinguishes [json.dumps(..., sort_keys=True)] from pydantic's
    writer: separators, key order, string escaping and float formatting. *)
Record Style : Type := {
  item_separator : str;
  key_separator : str;
  sort_keys : bool;
  encode_str : str -> str;
  encode_float : Q -> str
}.

(** [sorted(items)] on rendered items: a stable insertion by key. *)
Fixpoint insert_item (x : str * str) (l : list (str * str)) : list (str * str) :=
  match l with
  | [] => [x]
  | y :: l' => if str_leb (fst x) (fst y) then x :: y :: l' else y :: insert_item x l'
  end.

Fixpoint sort_items (l : list (str * str)) : list (str * str) :=
  match l with
  | [] => []
  | x :: l' => insert_item x (sort_items l')
  end.

(** Items are rendered first and ordered after: the order of rendering does
    not show in the text. *)
Fixpoint write (st : Style) (v : JsonValue) : str :=
  match v with
  | JNull => lit "null"
  | JBool true => lit "true"
  | JBool false => lit "false"
  | JInt n => str_of_int n
  | JFloat x => encode_float st x
  | JStr s => encode_str st s
  | JList items =>
      lit "[" ++ join (item_separator st) (map (write st) items) ++ lit "]"
  | JDict items =>
      let rendered := map (fun kv => (fst kv, write st (snd kv))) items in
      let ordered := if sort_keys st then sort_items rendered else rendered in
      lit "{"
      ++ join (item_separator st)
              (map (fun kv => encode_str st (fst kv) ++ key_separator st ++ snd kv) ordered)
      ++ lit "}"
  end.

Section Serializers.

(** [float.__repr__], and the float writer of pydantic's serializer: both
    belong to the libraries and are left open. *)
Variable float_repr : Q -> str.
Variable pydantic_float : Q -> str.

(** [json.dumps(v, sort_keys=True)]. *)
Definition json_dumps_sort_keys : JsonValue -> str :=
  write {| item_separator := lit ", "; key_separator := lit ": "; sort_keys := true;
           encode_str := py_encode_basestring_ascii; encode_float := float_repr |}.

(** pydantic's JSON text of a value: compact, items in insertion order. *)
Definition pydantic_to_json : JsonValue -> str :=
  write {| item_separator := lit ","; key_separator := lit ":"; sort_keys := false;
           encode_str := serde_format_escaped_str; encode_float := pydantic_float |}.

End Serializers.

End Json.
Import Json.

(* ===================================================================== *)
(** * Job status, responses and the error classes *)
(* ===================================================================== *)

Module Models.

(** Modelled from the spec: [ComputeHordeJobStatus] of
    [compute_horde_sdk/_internal/models.py], which is not among the sources.
    The values and their classification are those of the data model:
    PENDING and RUNNING are in progress, the three others terminal. *)
Inductive ComputeHordeJobStatus : Type :=
| PENDING
| RUNNING
| COMPLETED
| FAILED
| REJECTED.

(** Modelled from the spec: [ComputeHordeJobStatus.is_in_progress]. *)
Definition is_in_progress (s : ComputeHordeJobStatus) : bool :=
  match s with
  | PENDING | RUNNING => true
  | COMPLETED | FAILED | REJECTED => false
  end.

Definition is_terminal (s : ComputeHordeJobStatus) : bool := negb (is_in_progress s).

(** Modelled from the spec: [FacilitatorJobResponse], by the three fields
    [ComputeHordeJob._from_response] reads. *)
Record FacilitatorJobResponse : Type := {
  response_uuid : str;
  response_status : ComputeHordeJobStatus;
  response_stdout : str
}.

(** Modelled from the spec: [ComputeHordeJobResult]. *)
Record ComputeHordeJobResult : Type := { stdout : str }.

End Models.
Import Models.

Module Exceptions.

(** The classes that the embedded code raises or lets through. *)
Inductive ExcClass : Type :=
| cls_Exception
| cls_ValueError
| cls_OverflowError
| cls_TimeoutError
| cls_binascii_Error
| cls_pydantic_ValidationError
| cls_httpx_RequestError
| cls_ComputeHordeError
| cls_ComputeHordeJobTimeoutError.

Definition class_eqb (a b : ExcClass) : bool :=
  match a, b with
  | cls_Exception, cls_Exception | cls_ValueError, cls_ValueError
  | cls_OverflowError, cls_OverflowError | cls_TimeoutError, cls_TimeoutError
  | cls_binascii_Error, cls_binascii_Error
  | cls_pydantic_ValidationError, cls_pydantic_ValidationError
  | cls_httpx_RequestError, cls_httpx_RequestError
  | cls_ComputeHordeError, cls_ComputeHordeError
  | cls_ComputeHordeJobTimeoutError, cls_ComputeHordeJobTimeoutError => true
  | _, _ => false
  end.

(** Direct bases.  [exceptions.py] declares
      class ComputeHordeError(Exception)
      class ComputeHordeJobTimeoutError(ComputeHordeError, TimeoutError)
    and nothing else. *)
Definition bases (c : ExcClass) : list ExcClass :=
  match c with
  | cls_Exception => []
  | cls_ValueError | cls_OverflowError | cls_TimeoutError
  | cls_httpx_RequestError | cls_ComputeHordeError => [cls_Exception]
  | cls_binascii_Error | cls_pydantic_ValidationError => [cls_ValueError]
  | cls_ComputeHordeJobTimeoutError => [cls_ComputeHordeError; cls_TimeoutError]
  end.

(** The hierarchy is two levels deep under [Exception]. *)
Definition issubclass (c d : ExcClass) : bool :=
  class_eqb c d
  || existsb (fun b => class_eqb b d || existsb (fun b' => class_eqb b' d) (bases b)) (bases c).

(** A raised exception, with what its message is built from.  The cause
    attached by [raise ... from e] is not kept: what is stated of an error
    below is its class and its message, never what else can be reached from
    it. *)
Inductive Exception : Type :=
| ComputeHordeError (message : str)
| ComputeHordeJobTimeoutError (uuid : str) (timeout : Q) (last_status : ComputeHordeJobStatus)
| ValueError (message : str)
| OverflowError (message : str)
| binascii_Error (message : str)
| pydantic_ValidationError (message : str)
| httpx_RequestError (message : str).

Definition type_of (e : Exception) : ExcClass :=
  match e with
  | ComputeHordeError _ => cls_ComputeHordeError
  | ComputeHordeJobTimeoutError _ _ _ => cls_ComputeHordeJobTimeoutError
  | ValueError _ => cls_ValueError
  | OverflowError _ => cls_OverflowError
  | binascii_Error _ => cls_binascii_Error
  | pydantic_ValidationError _ => cls_pydantic_ValidationError
  | httpx_RequestError _ => cls_httpx_RequestError
  end.

Definition isinstance (e : Exception) (c : ExcClass) : bool := issubclass (type_of e) c.

(** The outcome of a call: a value, or a raised exception. *)
Inductive Result (A : Type) : Type :=
| Ok (a : A)
| Raise (e : Exception).

Arguments Ok {A} a.
Arguments Raise {A} e.

Definition bind_result {A B} (r : Result A) (k : A -> Result B) : Result B :=
  match r with
  | Ok a => k a
  | Raise e => Raise e
  end.

End Exceptions.
Import Exceptions.

(* ===================================================================== *)
(** * base64 and BLAKE2b, as the standard library computes them *)
(* ===================================================================== *)

Module Base64.

Definition PAD : N := 61.

(** [binascii]'s decoding table: the value of an alphabet character. *)
Definition table_a2b_base64 (c : N) : option N :=
  if in_range "A" "Z" c then Some (c - 65)%N
  else if in_range "a" "z" c then Some (c - 97 + 26)%N
  else if in_range "0" "9" c then Some (c - 48 + 52)%N
  else if (c =? 43)%N then Some 62%N
  else if (c =? 47)%N then Some 63%N
  else None.

(** [binascii.a2b_base64] in its default, non-strict mode, which is what
    [base64.b64decode(s)] calls: a character outside the alphabet is skipped,
    a completed pad sequence ends the scan, and the only failure is an
    incomplete last quad. *)
Fixpoint a2b_loop (data : list N) (quad_pos leftchar pads : N) (out : bytes) : Result bytes :=
  match data with
  | [] =>
      if (quad_pos =? 0)%N then Ok out
      else if (quad_pos =? 1)%N then
        Raise (binascii_Error
                 (lit "Invalid base64-encoded string: number of data characters ("
                  ++ str_of_int (Z.of_nat (List.length out) / 3 * 4 + 1)
                  ++ lit ") cannot be 1 more than a multiple of 4"))
      else Raise (binascii_Error (lit "Incorrect padding"))
  | this_ch :: rest =>
      if (this_ch =? PAD)%N then
        if (2 <=? quad_pos)%N then
          if (4 <=? quad_pos + (pads + 1))%N then Ok out
          else a2b_loop rest quad_pos leftchar (pads + 1)%N out
        else a2b_loop rest quad_pos leftchar pads out
      else
        match table_a2b_base64 this_ch with
        | None => a2b_loop rest quad_pos leftchar pads out
        | Some v =>
            if (quad_pos =? 0)%N then a2b_loop rest 1%N v 0%N out
            else if (quad_pos =? 1)%N then
              a2b_loop rest 2%N (N.land v 15) 0%N
                       (out ++ [byte_of_N (N.lor (N.shiftl leftchar 2) (N.shiftr v 4))])
            else if (quad_pos =? 2)%N then
              a2b_loop rest 3%N (N.land v 3) 0%N
                       (out ++ [byte_of_N (N.lor (N.shiftl leftchar 4) (N.shiftr v 2))])
            else
              a2b_loop rest 0%N 0%N 0%N
                       (out ++ [byte_of_N (N.lor (N.shiftl leftchar 6) v)])
        end
  end.

Definition b64decode (s : bytes) : Result bytes :=
  a2b_loop (map Byte.to_N s) 0%N 0%N 0%N [].

Definition table_b2a_base64 (v : N) : byte :=
  byte_of_N (if (v <? 26)%N then v + 65
             else if (v <? 52)%N then v - 26 + 97
             else if (v <? 62)%N then v - 52 + 48
             else if (v =? 62)%N then 43 else 47)%N.

(** [base64.b64encode]: three bytes to four characters, padded with [=]. *)
Fixpoint b64encode (s : bytes) : bytes :=
  match s with
  | [] => []
  | [a] =>
      let x := Byte.to_N a in
      [table_b2a_base64 (N.shiftr x 2); table_b2a_base64 (N.shiftl (N.land x 3) 4);
       byte_of_N PAD; byte_of_N PAD]
  | [a; b] =>
      let x := Byte.to_N a in
      let y := Byte.to_N b in
      [table_b2a_base64 (N.shiftr x 2);
       table_b2a_base64 (N.lor (N.shiftl (N.land x 3) 4) (N.shiftr y 4));
       table_b2a_base64 (N.shiftl (N.land y 15) 2); byte_of_N PAD]
  | a :: b :: c :: rest =>
      let x := Byte.to_N a in
      let y := Byte.to_N b in
      let z := Byte.to_N c in
      table_b2a_base64 (N.shiftr x 2)
      :: table_b2a_base64 (N.lor (N.shiftl (N.land x 3) 4) (N.shiftr y 4))
      :: table_b2a_base64 (N.lor (N.shiftl (N.land y 15) 2) (N.shiftr z 6))
      :: table_b2a_base64 (N.land z 63)
      :: b64encode rest
  end.

(** [bytes.decode("utf-8")] on text that is ASCII, as base64 text is. *)
Definition decode_ascii (b : bytes) : str := map Byte.to_N b.

(** The text the specification calls valid: quads of alphabet characters,
    the last one possibly ending in one or two pads. *)
Definition is_alphabet (c : N) : bool :=
  match table_a2b_base64 c with Some _ => true | None => false end.

Fixpoint is_valid_base64_codes (s : list N) : bool :=
  match s with
  | [] => true
  | [a; b; c; d] =>
      is_alphabet a && is_alphabet b
      && ((is_alphabet c && (is_alphabet d || (d =? PAD)%N))
          || ((c =? PAD)%N && (d =? PAD)%N))
  | a :: b :: c :: d :: rest =>
      is_alphabet a && is_alphabet b && is_alphabet c && is_alphabet d
      && is_valid_base64_codes rest
  | _ => false
  end.

Definition is_valid_base64 (s : bytes) : bool := is_valid_base64_codes (map Byte.to_N s).

End Base64.
Import Base64.

Module Blake2b.

(** [hashlib.blake2b()] with its defaults: BLAKE2b (RFC 7693), unkeyed, with
    a 64-byte digest.  Words are 64-bit integers in [Z]. *)

Definition W : Z := 2 ^ 64.
Definition add64 (a b : Z) : Z := (a + b) mod W.
Definition rotr64 (x n : Z) : Z := Z.lor (Z.shiftr x n) (Z.shiftl x (64 - n) mod W).

Definition IV : list Z :=
  [ 0x6a09e667f3bcc908; 0xbb67ae8584caa73b; 0x3c6ef372fe94f82b; 0xa54ff53a5f1d36f1;
    0x510e527fade682d1; 0x9b05688c2b3e6c1f; 0x1f83d9abfb41bd6b; 0x5be0cd19137e2179 ].

Definition SIGMA : list (list nat) :=
  [ [0; 1; 2; 3; 4; 5; 6; 7; 8; 9; 10; 11; 12; 13; 14; 15];
    [14; 10; 4; 8; 9; 15; 13; 6; 1; 12; 0; 2; 11; 7; 5; 3];
    [11; 8; 12; 0; 5; 2; 15; 13; 10; 14; 3; 6; 7; 1; 9; 4];
    [7; 9; 3; 1; 13; 12; 11; 14; 2; 6; 5; 10; 4; 0; 15; 8];
    [9; 0; 5; 7; 2; 4; 10; 15; 14; 1; 11; 12; 6; 8; 3; 13];
    [2; 12; 6; 10; 0; 11; 8; 3; 4; 13; 7; 5; 15; 14; 1; 9];
    [12; 5; 1; 15; 14; 13; 4; 10; 0; 7; 6; 3; 9; 2; 8; 11];
    [13; 11; 7; 14; 12; 1; 3; 9; 5; 0; 15; 4; 8; 6; 2; 10];
    [6; 15; 14; 9; 11; 3; 0; 8; 12; 2; 13; 7; 1; 4; 10; 5];
    [10; 2; 8; 4; 7; 6; 1; 5; 15; 11; 9; 14; 3; 12; 13; 0] ]%nat.

Definition word (v : list Z) (i : nat) : Z := nth i v 0.

Fixpoint set_word (v : list Z) (i : nat) (x : Z) : list Z :=
  match v, i with
  | [], _ => []
  | _ :: v', O => x :: v'
  | y :: v', S j => y :: set_word v' j x
  end.

(** The mixing function. *)
Definition G (v : list Z) (a b c d : nat) (x y : Z) : list Z :=
  let va := add64 (add64 (word v a) (word v b)) x in
  let vd := rotr64 (Z.lxor (word v d) va) 32 in
  let vc := add64 (word v c) vd in
  let vb := rotr64 (Z.lxor (word v b) vc) 24 in
  let va := add64 (add64 va vb) y in
  let vd := rotr64 (Z.lxor vd va) 16 in
  let vc := add64 vc vd in
  let vb := rotr64 (Z.lxor vb vc) 63 in
  set_word (set_word (set_word (set_word v a va) b vb) c vc) d vd.

Definition round (m : list Z) (v : list Z) (r : nat) : list Z :=
  let s := nth (r mod 10) SIGMA [] in
  let mw (i : nat) := word m (nth i s O) in
  let v := G v 0 4 8 12 (mw 0%nat) (mw 1%nat) in
  let v := G v 1 5 9 13 (mw 2%nat) (mw 3%nat) in
  let v := G v 2 6 10 14 (mw 4%nat) (mw 5%nat) in
  let v := G v 3 7 11 15 (mw 6%nat) (mw 7%nat) in
  let v := G v 0 5 10 15 (mw 8%nat) (mw 9%nat) in
  let v := G v 1 6 11 12 (mw 10%nat) (mw 11%nat) in
  let v := G v 2 7 8 13 (mw 12%nat) (mw 13%nat) in
  G v 3 4 9 14 (mw 14%nat) (mw 15%nat).

(** A little-endian word from up to eight bytes. *)
Fixpoint le_word (b : bytes) : Z :=
  match b with
  | [] => 0
  | x :: b' => Z.of_N (Byte.to_N x) + 256 * le_word b'
  end.

Fixpoint le_words (n : nat) (b : bytes) : list Z :=
  match n with
  | O => []
  | S k => le_word (firstn 8 b) :: le_words k (skipn 8 b)
  end.

Fixpoint le_bytes (n : nat) (x : Z) : bytes :=
  match n with
  | O => []
  | S k => byte_of_Z x :: le_bytes k (Z.shiftr x 8)
  end.

(** The compression function F: chain value [h], one 128-byte block, the
    byte counter [t] and the last-block flag. *)
Definition compress (h : list Z) (block : bytes) (t : Z) (last : bool) : list Z :=
  let m := le_words 16 block in
  let v := h ++ IV in
  let v := set_word v 12 (Z.lxor (word v 12) (t mod W)) in
  let v := set_word v 13 (Z.lxor (word v 13) (Z.shiftr t 64 mod W)) in
  let v := if last then set_word v 14 (Z.lxor (word v 14) (W - 1)) else v in
  let v := fold_left (round m) (seq 0 12) v in
  map (fun i => Z.lxor (Z.lxor (word h i) (word v i)) (word v (i + 8))) (seq 0 8).

Definition pad_block (data : bytes) : bytes :=
  data ++ repeat x00 (128 - List.length data).

Fixpoint absorb (fuel : nat) (h : list Z) (t : Z) (data : bytes) : list Z :=
  match fuel with
  | O => h
  | S fuel' =>
      if (List.length data <=? 128)%nat
      then compress h (pad_block data) (t + Z.of_nat (List.length data)) true
      else absorb fuel' (compress h (firstn 128 data) (t + 128) false) (t + 128)
                  (skipn 128 data)
  end.

(** The digest of a whole message; one round of [absorb] per block, so the
    length of the message is fuel enough. *)
Definition blake2b (data : bytes) : bytes :=
  let h0 := set_word IV 0 (Z.lxor (word IV 0) 0x01010040) in
  flat_map (le_bytes 8) (absorb (S (List.length data)) h0 0 data).

(** The hasher object: [update] appends to what has been fed so far,
    [digest] hashes it. *)
Record Hasher : Type := { fed : bytes }.

Definition new : Hasher := {| fed := [] |}.
Definition update (h : Hasher) (data : bytes) : Hasher := {| fed := fed h ++ data |}.
Definition digest (h : Hasher) : bytes := blake2b (fed h).

Definition hex (b : bytes) : str :=
  flat_map (fun x => let n := Byte.to_N x in [hex_digit (N.shiftr n 4); hex_digit (N.land n 15)]) b.

End Blake2b.

(* ===================================================================== *)
(** * What is left open of the Python runtime *)
(* ===================================================================== *)

Module Runtime.

(** Library behaviour that depends on tables or algorithms outside the
    repository.  Nothing below fixes them; every theorem holds for all. *)
Record PyRuntime : Type := {
  (** [float.__repr__] *)
  float_repr : Q -> str;
  (** [str(v)] for a value that is not a [str] *)
  py_repr : JsonValue -> str;
  (** [c.isalnum()] for a code point past ASCII *)
  unicode_isalnum : char -> bool;
  (** [c.upper()] for a code point past ASCII *)
  unicode_upper : char -> str;
  (** the float writer of pydantic's JSON serializer *)
  pydantic_float : Q -> str;
  (** pydantic's reading of a value that is not a [bool] as a [bool] field *)
  pydantic_lax_bool : JsonValue -> option bool
}.

(** [s.upper()]. *)
Definition upper (rt : PyRuntime) (s : str) : str :=
  flat_map (fun c => if is_ascii c then [if ascii_lower c then (c - 32)%N else c]
                     else unicode_upper rt c) s.

End Runtime.
Import Runtime.

(* ===================================================================== *)
(** * Regular expressions: the fragment of [re] the pattern is written in *)
(* ===================================================================== *)

Module Re.

Inductive CharClass : Type :=
| Word
| NotChar (c : char).

Inductive Atom : Type :=
| Bol
| Lit (c : char)
| Plus (cls : CharClass).

Definition Pattern := list Atom.

Section Matching.

Variable rt : PyRuntime.

(** [\w] in a [str] pattern: alphanumeric or the underscore. *)
Definition is_word (c : char) : bool :=
  if is_ascii c then ascii_alnum c || (c =? 95)%N else unicode_isalnum rt c.

Definition in_class (cls : CharClass) (c : char) : bool :=
  match cls with
  | Word => is_word c
  | NotChar x => negb (c =? x)%N
  end.

(** [cls+] followed by the rest of the pattern, [k]: greedy, taking as many
    characters as the class allows and giving them back one at a time until
    the rest matches. *)
Fixpoint greedy (cls : CharClass) (k : str -> option nat) (s : str) : option nat :=
  match s with
  | x :: s' =>
      if in_class cls x then
        match greedy cls k s' with
        | Some n => Some (S n)
        | None => option_map S (k s')
        end
      else None
  | [] => None
  end.

(** A match of [re] at the head of [s], as the number of characters it
    takes; [at_start] tells whether [s] is the whole subject, which is where
    [^] holds. *)
Fixpoint match_here (re : Pattern) (at_start : bool) (s : str) : option nat :=
  match re with
  | [] => Some O
  | Bol :: re' => if at_start then match_here re' at_start s else None
  | Lit c :: re' =>
      match s with
      | x :: s' => if (x =? c)%N then option_map S (match_here re' false s') else None
      | [] => None
      end
  | Plus cls :: re' => greedy cls (match_here re' false) s
  end.

(** [pattern.sub(repl, s)] with a literal replacement: the subject is
    scanned from the left, each match is replaced and the scan goes on after
    it; [skip] counts the characters of a match still to be dropped. *)
Fixpoint sub_scan (re : Pattern) (repl : str) (at_start : bool) (skip : nat) (s : str) : str :=
  match skip with
  | S k =>
      match s with
      | [] => []
      | _ :: s' => sub_scan re repl false k s'
      end
  | O =>
      match match_here re at_start s with
      | Some (S n) =>
          repl ++ match s with
                  | [] => []
                  | _ :: s' => sub_scan re repl false n s'
                  end
      | Some O =>
          repl ++ match s with
                  | [] => []
                  | c :: s' => c :: sub_scan re repl false O s'
                  end
      | None =>
          match s with
          | [] => []
          | c :: s' => c :: sub_scan re repl false O s'
          end
      end
  end.

Definition sub (re : Pattern) (repl : str) (s : str) : str := sub_scan re repl true O s.

End Matching.

End Re.

(* ===================================================================== *)
(** * The world: clock and facilitator *)
(* ===================================================================== *)

Module Net.

(** What [_make_request] hands to [build_request]. *)
Record Request : Type := {
  method : str;
  url : str;
  json : option JsonValue;
  params : option (dict JsonValue);
  headers : option (dict str)
}.

(** The facilitator answers with a status and a body, or the transport
    gives up ([httpx.RequestError]). *)
Inductive Outcome : Type :=
| Response (status_code : Z) (text : str)
| NoResponse (message : str).

(** A reply and the time the round trip took, in seconds. *)
Record Reply : Type := {
  latency : Q;
  outcome : Outcome
}.

(** The clock in seconds since the epoch, the exchanges so far (newest
    first), and the facilitator as a function of the requests it has seen. *)
Record World : Type := {
  now : Q;
  exchanges : list (Request * Reply);
  facilitator : list Request -> Request -> Reply
}.

Definition M (A : Type) : Type := World -> Result A * World.

Definition ret {A} (a : A) : M A := fun w => (Ok a, w).

Definition raise {A} (e : Exception) : M A := fun w => (Raise e, w).

Definition bind {A B} (c : M A) (k : A -> M B) : M B :=
  fun w =>
    match c w with
    | (Ok a, w') => k a w'
    | (Raise e, w') => (Raise e, w')
    end.

Definition lift {A} (r : Result A) : M A := fun w => (r, w).

Declare Scope py_scope.
Delimit Scope py_scope with py.
Notation "x <- c ;; k" := (bind c (fun x => k))
  (at level 61, c at next level, right associativity) : py_scope.
Notation "c ;;; k" := (bind c (fun _ => k))
  (at level 61, right associativity) : py_scope.

(** [time.time()] is [now]; [time.time_ns()] and [asyncio.sleep(seconds)]. *)
Definition time_time_ns : M Z := fun w => (Ok (Qfloor (now w * 1000000000)), w).

Definition advance (dt : Q) (w : World) : World :=
  {| now := now w + dt; exchanges := exchanges w; facilitator := facilitator w |}.

Definition sleep (seconds : Q) : M unit :=
  fun w => (Ok tt, if Qle_bool seconds 0 then w else advance seconds w).

(** The facilitator's reply to a request after the ones before it, and the
    world once the round trip is over. *)
Definition reply_to (w : World) (req : Request) : Reply :=
  facilitator w (map fst (exchanges w)) req.

Definition exchange (w : World) (req : Request) : World :=
  {| now := now w + latency (reply_to w req);
     exchanges := (req, reply_to w req) :: exchanges w;
     facilitator := facilitator w |}.

(** [client.send(request)]. *)
Definition send (req : Request) : M (Z * str) :=
  fun w =>
    match outcome (reply_to w req) with
    | Response code text => (Ok (code, text), exchange w req)
    | NoResponse msg => (Raise (httpx_RequestError msg), exchange w req)
    end.

(** [response.raise_for_status()] raises unless the status is 2xx. *)
Definition is_success (status_code : Z) : bool :=
  (200 <=? status_code) && (status_code <=? 299).

End Net.
Import Net.
Local Open Scope py_scope.

(* ===================================================================== *)
(** * [_compute_horde_models/signature.py] *)
(* ===================================================================== *)

Module SignaturePy.

Record Signature : Type := {
  signature_type : str;
  signatory : str;
  timestamp_ns : Z;
  signature : bytes
}.

(** [Signature.validate_signature]. *)
Definition validate_signature (signature : bytes) : Result bytes := b64decode signature.

(** [Signature.serialize_signature]. *)
Definition serialize_signature (signature : bytes) : str := decode_ascii (b64encode signature).

(** [Signature(signature_type=..., ...)]: pydantic runs the field validator
    and reports its [ValueError] as a [ValidationError]. *)
Definition new_Signature (signature_type signatory : str) (timestamp_ns : Z) (signature : bytes)
  : Result Signature :=
  match validate_signature signature with
  | Ok decoded =>
      Ok {| signature_type := signature_type; signatory := signatory;
            timestamp_ns := timestamp_ns; signature := decoded |}
  | Raise (binascii_Error msg) => Raise (pydantic_ValidationError msg)
  | Raise e => Raise e
  end.

(** [signature.signature = value]: assignment is not validated. *)
Definition set_signature (s : Signature) (value : bytes) : Signature :=
  {| signature_type := signature_type s; signatory := signatory s;
     timestamp_ns := timestamp_ns s; signature := value |}.

Record SignedFields : Type := {
  executor_class : str;
  docker_image : str;
  raw_script : str;
  args : str;
  env : dict str;
  use_gpu : bool;
  volumes : list JsonValue;
  uploads : list JsonValue
}.

(** [a == b] on models: field by field, dicts without regard to order. *)
Definition json_list_eqb (a b : list JsonValue) : bool := json_eqb (JList a) (JList b).

Definition SignedFields_eqb (a b : SignedFields) : bool :=
  str_eqb (executor_class a) (executor_class b)
  && str_eqb (docker_image a) (docker_image b)
  && str_eqb (raw_script a) (raw_script b)
  && str_eqb (args a) (args b)
  && dict_eqb str_eqb (env a) (env b)
  && Bool.eqb (use_gpu a) (use_gpu b)
  && json_list_eqb (volumes a) (volumes b)
  && json_list_eqb (uploads a) (uploads b).

(** [model.model_dump()]: the fields in the order of their declaration. *)
Definition model_dump (f : SignedFields) : JsonValue :=
  JDict [ (lit "executor_class", JStr (executor_class f));
          (lit "docker_image", JStr (docker_image f));
          (lit "raw_script", JStr (raw_script f));
          (lit "args", JStr (args f));
          (lit "env", JDict (map (fun kv => (fst kv, JStr (snd kv))) (env f)));
          (lit "use_gpu", JBool (use_gpu f));
          (lit "volumes", JList (volumes f));
          (lit "uploads", JList (uploads f)) ].

(** What is hashed: bytes as they are, or a JSON value. *)
Inductive Payload : Type :=
| PayloadBytes (b : bytes)
| PayloadJson (v : JsonValue).

Section WithRuntime.

Variable rt : PyRuntime.

(** [str(v)]. *)
Definition py_str (v : JsonValue) : str :=
  match v with
  | JStr s => s
  | _ => py_repr rt v
  end.

(** pydantic's validation of the three fields that are not [str]. *)
Fixpoint validate_str_dict (items : list (str * JsonValue)) : option (dict str) :=
  match items with
  | [] => Some []
  | (k, JStr v) :: rest => option_map (cons (k, v)) (validate_str_dict rest)
  | _ :: _ => None
  end.

Definition validate_env (v : JsonValue) : option (dict str) :=
  match v with
  | JDict items => validate_str_dict items
  | _ => None
  end.

Definition validate_bool (v : JsonValue) : option bool :=
  match v with
  | JBool b => Some b
  | _ => pydantic_lax_bool rt v
  end.

Definition validate_list (v : JsonValue) : option (list JsonValue) :=
  match v with
  | JList items => Some items
  | _ => None
  end.

(** [SignedFields.from_facilitator_sdk_json]. *)
Definition from_facilitator_sdk_json (data : dict JsonValue) : Result SignedFields :=
  match validate_env (dict_get_default data (lit "env") JNull),
        validate_bool (dict_get_default data (lit "use_gpu") JNull),
        validate_list (dict_get_default data (lit "volumes") (JList [])),
        validate_list (dict_get_default data (lit "uploads") (JList [])) with
  | Some env, Some use_gpu, Some volumes, Some uploads =>
      Ok {| executor_class := py_str (dict_get_default data (lit "executor_class") JNull);
            docker_image := py_str (dict_get_default data (lit "docker_image") (JStr []));
            raw_script := py_str (dict_get_default data (lit "raw_script") (JStr []));
            args := py_str (dict_get_default data (lit "args") (JStr []));
            env := env;
            use_gpu := use_gpu;
            volumes := volumes;
            uploads := uploads |}
  | _, _, _, _ => Raise (pydantic_ValidationError (lit "SignedFields"))
  end.

(** [model.model_dump_json()]. *)
Definition model_dump_json (f : SignedFields) : str :=
  pydantic_to_json (pydantic_float rt) (model_dump f).

(** [signature_to_headers]. *)
Definition signature_to_headers (signature : Signature) (prefix : str) : dict str :=
  [ (prefix ++ lit "Signature-Type", signature_type signature);
    (prefix ++ lit "Signatory", signatory signature);
    (prefix ++ lit "Timestamp-NS", str_of_int (timestamp_ns signature));
    (prefix ++ lit "Signature", decode_ascii (b64encode (SignaturePy.signature signature))) ].

Definition default_prefix : str := lit "X-CH-".

(** The bytes [hash_message_signature] feeds after the timestamp:
    [json.dumps(payload, sort_keys=True).encode("utf-8")] unless the payload
    is [bytes] already. *)
Definition payload_bytes (payload : Payload) : Result bytes :=
  match payload with
  | PayloadBytes b => Ok b
  | PayloadJson v =>
      match encode_utf8 (json_dumps_sort_keys (float_repr rt) v) with
      | Some b => Ok b
      | None => Raise (ValueError (lit "'utf-8' codec can't encode character"))
      end
  end.

(** [hash_message_signature]. *)
Definition hash_message_signature (payload : Payload) (signature : Signature) : Result bytes :=
  bind_result (payload_bytes payload) (fun payload =>
    let hasher := Blake2b.new in
    match int_to_bytes_big (timestamp_ns signature) 8 with
    | None =>
        Raise (OverflowError (if timestamp_ns signature <? 0
                              then lit "can't convert negative int to unsigned"
                              else lit "int too big to convert"))
    | Some ts =>
        let hasher := Blake2b.update hasher ts in
        let hasher := Blake2b.update hasher payload in
        Ok (Blake2b.digest hasher)
    end).

(** [re.compile(r"^\w+://[^/]+")]. *)
Definition _REMOVE_URL_SCHEME_N_HOST_RE : Re.Pattern :=
  [Re.Bol; Re.Plus Re.Word; Re.Lit (chr ":"); Re.Lit (chr "/"); Re.Lit (chr "/");
   Re.Plus (Re.NotChar (chr "/"))].

(** [signature_payload]. *)
Definition signature_payload (method url : str) (headers : dict str) (json : option JsonValue)
  : JsonValue :=
  let reduced_url := Re.sub rt _REMOVE_URL_SCHEME_N_HOST_RE [] url in
  JDict [ (lit "action", JStr (upper rt method ++ lit " " ++ reduced_url));
          (lit "json", match json with Some j => j | None => JNull end) ].

(** [SignatureScheme.payload_from_request]. *)
Definition payload_from_request (method url : str) (headers : dict str) (json : option JsonValue)
  : JsonValue :=
  signature_payload method url headers json.

(** The abstract [Signer]: the scheme's tag and the two abstract methods. *)
Record Signer : Type := {
  scheme_signature_type : str;
  get_signatory : M str;
  _sign : bytes -> M bytes
}.

(** [Signer.sign]. *)
Definition sign (self : Signer) (payload : Payload) : M Signature :=
  who <- get_signatory self ;;
  ts <- time_time_ns ;;
  signature <- lift (new_Signature (scheme_signature_type self) who ts []) ;;
  payload_hash <- lift (hash_message_signature payload signature) ;;
  signed <- _sign self payload_hash ;;
  ret (set_signature signature signed).

(** [Signer.signature_for_request]. *)
Definition signature_for_request (self : Signer) (method url : str) (headers : dict str)
    (json : option JsonValue) : M Signature :=
  sign self (PayloadJson (payload_from_request method url headers json)).

(** A [bittensor.Keypair], by what the signer uses of it. *)
Record Keypair : Type := {
  ss58_address : str;
  keypair_sign : bytes -> M bytes
}.

(** [BittensorWalletSigner(keypair)]. *)
Definition BittensorWalletSigner (keypair : Keypair) : Signer :=
  {| scheme_signature_type := lit "bittensor";
     get_signatory := ret (ss58_address keypair);
     _sign := fun payload => keypair_sign keypair payload |}.

End WithRuntime.

End SignaturePy.
Import SignaturePy.

(* ===================================================================== *)
(** * [compute_horde_sdk/_internal/sdk.py] *)
(* ===================================================================== *)

Module Sdk.

(** [JOB_REFRESH_INTERVAL.total_seconds()]. *)
Definition JOB_REFRESH_INTERVAL : Q := 3.

Definition DEFAULT_FACILITATOR_URL : str := lit "https://facilitator.computehorde.io/api/v1/".

Record ComputeHordeClient : Type := {
  hotkey : Keypair;
  compute_horde_validator_hotkey : option str;
  job_queue : option str;
  facilitator_url : str;
  facilitator_token : str;
  _signer : Signer
}.

(** [ComputeHordeClient.__init__]. *)
Definition new_ComputeHordeClient (hotkey : Keypair) (facilitator_token : str)
    (compute_horde_validator_hotkey job_queue : option str) (facilitator_url : str)
  : ComputeHordeClient :=
  {| hotkey := hotkey;
     compute_horde_validator_hotkey := compute_horde_validator_hotkey;
     job_queue := job_queue;
     facilitator_url := facilitator_url;
     facilitator_token := facilitator_token;
     _signer := BittensorWalletSigner hotkey |}.

Record ComputeHordeJob : Type := {
  _client : ComputeHordeClient;
  uuid : str;
  status : ComputeHordeJobStatus;
  result : option ComputeHordeJobResult
}.

(** A method of a job runs on the job and the world, and leaves both as they
    are when it raises. *)
Definition JobM (A : Type) : Type :=
  ComputeHordeJob -> World -> Result A * ComputeHordeJob * World.

(** [ComputeHordeJob._from_response]. *)
Definition _from_response (client : ComputeHordeClient) (response : FacilitatorJobResponse)
  : ComputeHordeJob :=
  let result :=
    match response_stdout response with
    | [] => None
    | _ :: _ => Some {| stdout := response_stdout response |}
    end in
  {| _client := client; uuid := response_uuid response;
     status := response_status response; result := result |}.

(** [ComputeHordeClient._make_request]. *)
Definition _make_request (self : ComputeHordeClient) (method url : str)
    (json : option JsonValue) (params : option (dict JsonValue)) (headers : option (dict str))
  : M str :=
  let request := {| method := method; url := url; json := json;
                    params := params; headers := headers |} in
  response <- send request ;;
  if is_success (fst response) then ret (snd response)
  else raise (ComputeHordeError
                (lit "Compute Horde responded with status code " ++ str_of_int (fst response))).

Section WithModels.

Variable rt : PyRuntime.

(** Modelled from the spec: [FacilitatorJobResponse.model_validate_json] of
    [models.py]; [None] stands for pydantic's [ValidationError]. *)
Variable model_validate_json : str -> option FacilitatorJobResponse.

(** Modelled from the spec: [ExecutorClass], a string enumeration whose
    members stand for their values, and the volume classes of [models.py] with
    the dump of what they convert to. *)
Variable ExecutorClass : Type.
Variable executor_class_value : ExecutorClass -> str.
Variable InputVolume : Type.
Variable to_compute_horde_volume : InputVolume -> str -> JsonValue.
Variable OutputVolume : Type.
Variable to_compute_horde_output_upload : OutputVolume -> str -> JsonValue.

(** [ComputeHordeClient._get_signature_headers]. *)
Definition _get_signature_headers (self : ComputeHordeClient) (data : dict JsonValue)
  : M (dict str) :=
  signed_fields <- lift (from_facilitator_sdk_json rt data) ;;
  signature <- sign rt (_signer self) (PayloadJson (JStr (model_dump_json rt signed_fields))) ;;
  ret (signature_to_headers signature default_prefix).

(** [ComputeHordeClient.get_job]. *)
Definition get_job (self : ComputeHordeClient) (job_uuid : str) : M ComputeHordeJob :=
  response <- _make_request self (lit "GET") (lit "/jobs/" ++ job_uuid) None None None ;;
  match model_validate_json response with
  | Some job_response => ret (_from_response self job_response)
  | None => raise (ComputeHordeError (lit "Compute Horde returned malformed response"))
  end.

(** Modelled from the spec: [FacilitatorJobsResponse.model_validate_json] of
    [models.py], by the [results] it holds; [None] stands for pydantic's
    [ValidationError]. *)
Variable jobs_model_validate_json : str -> option (list FacilitatorJobResponse).

(** [ComputeHordeClient.get_jobs]; the defaults of [page] and [page_size]
    are 1 and 10. *)
Definition get_jobs (self : ComputeHordeClient) (page page_size : Z) : M (list ComputeHordeJob) :=
  let params := [(lit "page", JInt page); (lit "page_size", JInt page_size)] in
  response <- _make_request self (lit "GET") (lit "/jobs/") None (Some params) None ;;
  match jobs_model_validate_json response with
  | Some results => ret (map (_from_response self) results)
  | None => raise (ComputeHordeError (lit "Compute Horde returned malformed response"))
  end.

(** [ComputeHordeClient._submit_job_feedback]. *)
Definition _submit_job_feedback (self : ComputeHordeClient) (job_uuid : str)
    (result_correctness : Q) (expected_duration : option Q) : M unit :=
  let data := [(lit "result_correctness", JFloat result_correctness)] in
  let data :=
    match expected_duration with
    | Some d => dict_set data (lit "expected_duration") (JFloat d)
    | None => data
    end in
  _make_request self (lit "PUT") (lit "/jobs/" ++ job_uuid ++ lit "/feedback/")
                (Some (JDict data)) None None ;;;
  ret tt.

(** The arguments of [create_job]. *)
Record CreateJobArgs : Type := {
  arg_executor_class : ExecutorClass;
  arg_job_namespace : str;
  arg_docker_image : str;
  arg_args : option (list str);
  arg_env : option (dict str);
  arg_artifacts_dir : option str;
  arg_input_volumes : option (dict InputVolume);
  arg_output_volumes : option (dict OutputVolume);
  arg_run_cross_validation : bool;
  arg_deposition_comparison_method : option str;
  arg_trusted_output_volumes : option (dict OutputVolume)
}.

(** The [data] dictionary [create_job] builds. *)
Definition job_data (self : ComputeHordeClient) (a : CreateJobArgs) : dict JsonValue :=
  let data :=
    [ (lit "target_validator_hotkey",
       match compute_horde_validator_hotkey self with Some h => JStr h | None => JNull end);
      (lit "executor_class", JStr (executor_class_value (arg_executor_class a)));
      (lit "docker_image", JStr (arg_docker_image a));
      (lit "args", JStr (join (lit " ") (match arg_args a with Some l => l | None => [] end)));
      (lit "env", JDict (map (fun kv => (fst kv, JStr (snd kv)))
                             (match arg_env a with Some e => e | None => [] end)));
      (lit "use_gpu", JBool true) ] in
  let data :=
    match arg_input_volumes a with
    | Some vols =>
        dict_set data (lit "volumes")
                 (JList (map (fun kv => to_compute_horde_volume (snd kv) (fst kv)) vols))
    | None => data
    end in
  match arg_output_volumes a with
  | Some vols =>
      dict_set data (lit "uploads")
               (JList (map (fun kv => to_compute_horde_output_upload (snd kv) (fst kv)) vols))
  | None => data
  end.

(** Not in the source: the value [from_facilitator_sdk_json] makes of that
    data, named for the statements below, which prove that it does. *)
Definition signed_fields_of_job (a : CreateJobArgs) : SignedFields :=
  {| executor_class := executor_class_value (arg_executor_class a);
     docker_image := arg_docker_image a;
     raw_script := [];
     args := join (lit " ") (match arg_args a with Some l => l | None => [] end);
     env := match arg_env a with Some e => e | None => [] end;
     use_gpu := true;
     volumes := match arg_input_volumes a with
                | Some vols => map (fun kv => to_compute_horde_volume (snd kv) (fst kv)) vols
                | None => []
                end;
     uploads := match arg_output_volumes a with
                | Some vols =>
                    map (fun kv => to_compute_horde_output_upload (snd kv) (fst kv)) vols
                | None => []
                end |}.

(** [ComputeHordeClient.create_job]. *)
Definition create_job (self : ComputeHordeClient) (a : CreateJobArgs) : M ComputeHordeJob :=
  if arg_run_cross_validation a then
    raise (ValueError (lit "Cross validation is not supported yet, please call create_job with run_cross_validation=False"))
  else
    let data := job_data self a in
    signature_headers <- _get_signature_headers self data ;;
    response <- _make_request self (lit "POST") (lit "/job-docker/") (Some (JDict data)) None
                              (Some signature_headers) ;;
    match model_validate_json response with
    | Some job_response => ret (_from_response self job_response)
    | None => raise (ComputeHordeError (lit "Compute Horde returned malformed response"))
    end.

(** [ComputeHordeJob.refresh_from_facilitator]. *)
Definition refresh_from_facilitator : JobM unit :=
  fun self w =>
    match get_job (_client self) (uuid self) w with
    | (Ok new_job, w') =>
        (Ok tt,
         {| _client := _client self; uuid := uuid self;
            status := status new_job; result := result new_job |},
         w')
    | (Raise e, w') => (Raise e, self, w')
    end.

(** [ComputeHordeJob.submit_feedback]. *)
Definition submit_feedback (result_correctness : Q) (expected_duration : option Q) : JobM unit :=
  fun self w =>
    let (r, w') := _submit_job_feedback (_client self) (uuid self)
                                        result_correctness expected_duration w in
    (r, self, w').

(** The loop of [ComputeHordeJob.wait]; [fuel] bounds the number of times
    the loop condition is evaluated, and [None] means it ran out.  The sleep
    lasts the interval exactly: a late wake-up shows in the clock as a longer
    round trip would, and latencies are arbitrary. *)
Fixpoint wait_loop (fuel : nat) (timeout : option Q) (start_time : Q)
    (self : ComputeHordeJob) (w : World)
  : option (Result unit * ComputeHordeJob * World) :=
  match fuel with
  | O => None
  | S fuel' =>
      if is_in_progress (status self) then
        let poll :=
          match refresh_from_facilitator self w with
          | (Ok _, self', w') =>
              wait_loop fuel' timeout start_time self' (snd (sleep JOB_REFRESH_INTERVAL w'))
          | (Raise e, self', w') => Some (Raise e, self', w')
          end in
        match timeout with
        | Some t =>
            if negb (Qle_bool (now w - start_time) t) then
              Some (Raise (ComputeHordeJobTimeoutError (uuid self) t (status self)), self, w)
            else poll
        | None => poll
        end
      else Some (Ok tt, self, w)
  end.

(** [ComputeHordeJob.wait]. *)
Definition wait (fuel : nat) (timeout : option Q) (self : ComputeHordeJob) (w : World)
  : option (Result unit * ComputeHordeJob * World) :=
  wait_loop fuel timeout (now w) self w.

End WithModels.

End Sdk.
Import Sdk.

(* ===================================================================== *)
(** * Fixtures for the concrete runs *)
(* ===================================================================== *)

Module Fixtures.

(** A runtime for inputs that are ASCII and hold no float: the open tables
    are never consulted on them. *)
Definition ascii_runtime : PyRuntime :=
  {| float_repr := fun _ => lit "0.0";
     py_repr := fun _ => lit "None";
     unicode_isalnum := fun _ => false;
     unicode_upper := fun c => [c];
     pydantic_float := fun _ => lit "0.0";
     pydantic_lax_bool := fun _ => None |}.

(** A facilitator whose job documents are reduced to the status name. *)
Definition status_of_name (text : str) : option ComputeHordeJobStatus :=
  if str_eqb text (lit "PENDING") then Some PENDING
  else if str_eqb text (lit "RUNNING") then Some RUNNING
  else if str_eqb text (lit "COMPLETED") then Some COMPLETED
  else if str_eqb text (lit "FAILED") then Some FAILED
  else if str_eqb text (lit "REJECTED") then Some REJECTED
  else None.

Definition validate_status_name (text : str) : option FacilitatorJobResponse :=
  option_map (fun s => {| response_uuid := lit "job-1"; response_status := s;
                          response_stdout := [] |})
             (status_of_name text).

(** A key whose signature of a digest is the digest read backwards. *)
Definition test_keypair : Keypair :=
  {| ss58_address := lit "5Test"; keypair_sign := fun digest => ret (rev digest) |}.

Definition test_client : ComputeHordeClient :=
  new_ComputeHordeClient test_keypair (lit "token") None None DEFAULT_FACILITATOR_URL.

Definition test_job (s : ComputeHordeJobStatus) : ComputeHordeJob :=
  {| _client := test_client; uuid := lit "job-1"; status := s; result := None |}.

(** Two signed-field values that differ only in the order their [env]
    entries were inserted in. *)
Definition fields_with_env (env : dict str) : SignedFields :=
  {| executor_class := lit "spin_up-4min.gpu-24gb";
     docker_image := lit "alpine:latest";
     raw_script := [];
     args := lit "echo hi";
     env := env;
     use_gpu := true;
     volumes := [];
     uploads := [] |}.

Definition fields_ab : SignedFields :=
  fields_with_env [(lit "a", lit "1"); (lit "b", lit "2")].

Definition fields_ba : SignedFields :=
  fields_with_env [(lit "b", lit "2"); (lit "a", lit "1")].

(** A world whose facilitator always answers [code] and [text] after a tenth
    of a second. *)
Definition constant_world (code : Z) (text : str) : World :=
  {| now := 1700000000;
     exchanges := [];
     facilitator := fun _ _ => {| latency := 1 # 10; outcome := Response code text |} |}.

End Fixtures.
Import Fixtures.

(* ===================================================================== *)
(** * Vocabulary of the statements *)
(* ===================================================================== *)

Module Terms.

(** The signature text has no pad character; the number of its alphabet
    characters. *)
Definition no_pad (s : bytes) : bool := forallb (fun c => negb (Byte.eqb c x3d)) s.

Definition data_chars (s : bytes) : nat :=
  List.length (filter is_alphabet (map Byte.to_N s)).

(** The error [_make_request] raises for a status code. *)
Definition status_error (code : Z) : Exception :=
  ComputeHordeError (lit "Compute Horde responded with status code " ++ str_of_int code).

(** The request [get_job] sends. *)
Definition get_job_request (job_uuid : str) : Request :=
  {| method := lit "GET"; url := lit "/jobs/" ++ job_uuid;
     json := None; params := None; headers := None |}.

(** The provisional signature [sign] builds before the digest is signed. *)
Definition provisional (signer : Signer) (who : str) (ts : Z) : Signature :=
  {| signature_type := scheme_signature_type signer; signatory := who;
     timestamp_ns := ts; signature := [] |}.

(** The payload [_get_signature_headers] hands to [sign] for signed fields:
    their JSON text, a [str]. *)
Definition signed_payload (rt : PyRuntime) (f : SignedFields) : Payload :=
  PayloadJson (JStr (model_dump_json rt f)).

(** The status in the facilitator's latest reply, and the time that reply
    took. *)
Definition last_reported (validate : str -> option FacilitatorJobResponse) (w : World)
  : option ComputeHordeJobStatus :=
  match exchanges w with
  | (_, reply) :: _ =>
      match outcome reply with
      | Response _ text => option_map response_status (validate text)
      | NoResponse _ => None
      end
  | [] => None
  end.

Definition last_latency (w : World) : Q :=
  match exchanges w with
  | (_, reply) :: _ => latency reply
  | [] => 0
  end.

(** The clock does not run backwards during a round trip. *)
Definition never_negative_latency (w : World) : Prop :=
  forall hist req, (0 <= latency (facilitator w hist req))%Q.

(** Whenever it is asked for the job, the facilitator answers with a job
    document whose status is in progress. *)
Definition always_in_progress (validate : str -> option FacilitatorJobResponse) (w : World)
    (job_uuid : str) : Prop :=
  forall hist,
    exists code text r,
      outcome (facilitator w hist (get_job_request job_uuid)) = Response code text
      /\ is_success code = true
      /\ validate text = Some r
      /\ is_in_progress (response_status r) = true.

(** The request [submit_feedback] sends. *)
Definition feedback_request (job_uuid : str) (result_correctness : Q)
    (expected_duration : option Q) : Request :=
  {| method := lit "PUT"; url := lit "/jobs/" ++ job_uuid ++ lit "/feedback/";
     json := Some (JDict ((lit "result_correctness", JFloat result_correctness)
                          :: match expected_duration with
                             | Some d => [(lit "expected_duration", JFloat d)]
                             | None => []
                             end));
     params := None; headers := None |}.

(** A job with its status and result replaced. *)
Definition with_status (job : ComputeHordeJob) (s : ComputeHordeJobStatus)
    (r : option ComputeHordeJobResult) : ComputeHordeJob :=
  {| _client := _client job; uuid := uuid job; status := s; result := r |}.

(** [int.from_bytes(b, "big")]. *)
Definition int_from_bytes_big (b : bytes) : Z :=
  fold_left (fun acc x => 256 * acc + Z.of_N (Byte.to_N x)) b 0.

(** Text that is ASCII throughout, and its bytes. *)
Definition all_ascii (s : str) : bool := forallb is_ascii s.

Definition ascii_bytes (s : str) : bytes := map byte_of_N s.

(** Items in the order of their keys. *)
Definition key_le (a b : str * str) : Prop := str_leb (fst a) (fst b) = true.

(** The longest prefix of [s] made of characters that satisfy [p]. *)
Fixpoint prefix_len (p : char -> bool) (s : str) : nat :=
  match s with
  | c :: s' => if p c then S (prefix_len p s') else O
  | [] => O
  end.

Definition not_slash (c : char) : bool := negb (c =? 47)%N.

(** What follows a leading [://]. *)
Definition after_separator (s : str) : option str :=
  match s with
  | c1 :: c2 :: c3 :: r =>
      if ((c1 =? 58) && (c2 =? 47) && (c3 =? 47))%N then Some r else None
  | _ => None
  end.

(** The length of the scheme, [://] and the host a URL starts with, each run
    taken whole. *)
Definition scheme_host_len (rt : PyRuntime) (url : str) : option nat :=
  match prefix_len (Re.is_word rt) url with
  | O => None
  | S n =>
      match after_separator (skipn (S n) url) with
      | Some r =>
          match prefix_len not_slash r with
          | O => None
          | S m => Some (S n + 3 + S m)%nat
          end
      | None => None
      end
  end.

(** The URL starts with a scheme, [://] and a host. *)
Definition has_scheme_and_host (rt : PyRuntime) (url : str) : Prop :=
  exists scheme host rest,
    url = scheme ++ lit "://" ++ host ++ rest
    /\ scheme <> [] /\ forallb (Re.is_word rt) scheme = true
    /\ host <> [] /\ forallb not_slash host = true.

(** A correctness value within the closed interval the docstring names. *)
Definition in_unit_interval (x : Q) : bool := Qle_bool 0 x && Qle_bool x 1.

End Terms.
Import Terms.

(* ===================================================================== *)
(** * Vocabulary of the further properties *)
(* ===================================================================== *)

Module MoreTerms.

(** Every byte, for checks that run over all of them. *)
Definition all_bytes : list byte := map (fun n => byte_of_N (N.of_nat n)) (seq 0 256).

(** The four sextets [b64encode] cuts three bytes into. *)
Definition sextet1 (x : N) : N := N.shiftr x 2.
Definition sextet2 (x y : N) : N := N.lor (N.shiftl (N.land x 3) 4) (N.shiftr y 4).
Definition sextet3 (y z : N) : N := N.lor (N.shiftl (N.land y 15) 2) (N.shiftr z 6).
Definition sextet4 (z : N) : N := N.land z 63.

(** The character [b64encode] writes for a sextet. *)
Definition b2a_code (v : N) : N := Byte.to_N (table_b2a_base64 v).

(** The keys [SignedFields.from_facilitator_sdk_json] reads. *)
Definition is_signed_key (k : str) : bool :=
  existsb (str_eqb k)
          [lit "executor_class"; lit "docker_image"; lit "raw_script"; lit "args";
           lit "env"; lit "use_gpu"; lit "volumes"; lit "uploads"].

(** The request [get_jobs] sends for a page. *)
Definition get_jobs_request (page page_size : Z) : Request :=
  {| method := lit "GET"; url := lit "/jobs/"; json := None;
     params := Some [(lit "page", JInt page); (lit "page_size", JInt page_size)];
     headers := None |}.

(** A payload of the kinds the SDK itself hands to [sign]: bytes, or a
    text, which is what [model_dump_json] gives. *)
Definition is_bytes_or_text (payload : Payload) : bool :=
  match payload with
  | PayloadBytes _ | PayloadJson (JStr _) => true
  | PayloadJson _ => false
  end.

(** The error for a response that does not validate. *)
Definition malformed_response : Exception :=
  ComputeHordeError (lit "Compute Horde returned malformed response").

End MoreTerms.
Import MoreTerms.
(* ===================================================================== *)
(** * Properties *)
(* ===================================================================== *)

(** ** The library models against the libraries' published values *)

Example str_of_int_neg : str_of_int (-42) = lit "-42".
Proof. reflexivity. Qed.

Example to_bytes_258 :
  int_to_bytes_big 258 8 = Some [x00; x00; x00; x00; x00; x00; x01; x02].
Proof. reflexivity. Qed.

Example to_bytes_overflow : int_to_bytes_big (2 ^ 64) 8 = None.
Proof. reflexivity. Qed.

Example encode_euro : encode_utf8 [8364%N] = Some [xe2; x82; xac].
Proof. reflexivity. Qed.

Example blake2b_empty :
  Blake2b.hex (Blake2b.blake2b []) =
  lit "786a02f742015903c6c6fd852552d272912f4740e15847618a86e217f71f5419d25e1031afee585313896444934eb04b903a685b1448b755d56f701afe9be2ce".
Proof. vm_compute. reflexivity. Qed.

Example blake2b_abc :
  Blake2b.hex (Blake2b.blake2b [x61; x62; x63]) =
  lit "ba80a53f981c4d0d6a2797b69f12f6e94c212f14685ac4b74b12bb6fdbffa2d17d87c5392aab792dc252d5de4533cc9518d38aa8dbf1925ab92386edd4009923".
Proof. vm_compute. reflexivity. Qed.

Example blake2b_128_zero :
  Blake2b.hex (Blake2b.blake2b (repeat x00 128)) =
  lit "865939e120e6805438478841afb739ae4250cf372653078a065cdcfffca4caf798e6d462b65d658fc165782640eded70963449ae1500fb0f24981d7727e22c41".
Proof. vm_compute. reflexivity. Qed.

Example blake2b_200 :
  Blake2b.hex (Blake2b.blake2b (map (fun n => byte_of_N (N.of_nat n)) (seq 0 200))) =
  lit "fb3c1f0f56a56f8e316fdf5d853c8c872c39635d083634c3904fc3ac07d1b578e85ff0e480e92d44ade33b62e893ee32343e79ddf6ef292e89b582d312502314".
Proof. vm_compute. reflexivity. Qed.

(** ** base64 decoding of the signature field *)

Example b64decode_abc : b64decode [x59; x57; x4a; x6a] = Ok [x61; x62; x63].
Proof. reflexivity. Qed.

Example b64decode_stops_at_pad :
  b64decode [x61; x62; x63; x3d; x64; x65; x66] = Ok [x69; xb7].
Proof. reflexivity. Qed.

Example b64encode_a : b64encode [x61] = [x59; x51; x3d; x3d].
Proof. reflexivity. Qed.

Lemma a2b_loop_total (data : list N) :
  forall quad_pos leftchar pads out,
    (exists decoded, a2b_loop data quad_pos leftchar pads out = Ok decoded)
    \/ (exists msg, a2b_loop data quad_pos leftchar pads out = Raise (binascii_Error msg)).
Proof.
  induction data as [|c rest IH]; intros q l p out; simpl.
  - destruct (q =? 0)%N; [left; eauto|].
    destruct (q =? 1)%N; right; eauto.
  - destruct (c =? PAD)%N.
    + destruct (2 <=? q)%N; [|apply IH].
      destruct (4 <=? q + (p + 1))%N; [left; eauto | apply IH].
    + destruct (table_a2b_base64 c); [|apply IH].
      destruct (q =? 0)%N; [apply IH|].
      destruct (q =? 1)%N; [apply IH|].
      destruct (q =? 2)%N; apply IH.
Qed.

(** Over text without a pad the scan only counts: it arrives at the rest of
    the input with the quad position advanced by the number of alphabet
    characters it met, and with no pad pending once it met one. *)
Lemma a2b_loop_data (data : list N) :
  forallb (fun c => negb (c =? PAD)%N) data = true ->
  forall rest quad_pos leftchar pads out,
    (quad_pos < 4)%N ->
    exists leftchar' out',
      a2b_loop (data ++ rest) quad_pos leftchar pads out
      = a2b_loop rest
          (N.of_nat ((N.to_nat quad_pos + List.length (filter is_alphabet data)) mod 4))
          leftchar'
          (match filter is_alphabet data with [] => pads | _ :: _ => 0%N end)
          out'.
Proof.
  induction data as [|c data IH]; intros Hpad rest q l p out Hq.
  - exists l, out. cbn [app filter List.length]. rewrite Nat.add_0_r.
    rewrite Nat.mod_small by lia. now rewrite N2Nat.id.
  - cbn [forallb] in Hpad. apply andb_prop in Hpad as [Hc Hdata].
    apply negb_true_iff in Hc.
    assert (His : is_alphabet c
                  = match table_a2b_base64 c with Some _ => true | None => false end)
      by reflexivity.
    cbn [app a2b_loop filter]. rewrite Hc, His.
    destruct (table_a2b_base64 c) as [v|]; [|exact (IH Hdata rest q l p out Hq)].
    cbn [List.length].
    assert (Hcases : q = 0%N \/ q = 1%N \/ q = 2%N \/ q = 3%N) by lia.
    assert (Hzero : forall l0 out0 q',
               (q' < 4)%N ->
               ((N.to_nat q' + List.length (filter is_alphabet data)) mod 4
                = (N.to_nat q + S (List.length (filter is_alphabet data))) mod 4)%nat ->
               exists leftchar' out',
                 a2b_loop (data ++ rest) q' l0 0%N out0
                 = a2b_loop rest
                     (N.of_nat ((N.to_nat q + S (List.length (filter is_alphabet data)))
                                mod 4))
                     leftchar' 0%N out').
    { intros l0 out0 q' Hq' Hmod.
      destruct (IH Hdata rest q' l0 0%N out0 Hq') as (l' & out' & Hrun).
      exists l', out'. rewrite Hrun, Hmod.
      now destruct (filter is_alphabet data). }
    destruct Hcases as [-> | [-> | [-> | ->]]]; cbn [N.eqb Pos.eqb];
      apply Hzero; try lia; try reflexivity.
    replace (N.to_nat 3 + S (List.length (filter is_alphabet data)))%nat
      with (N.to_nat 0 + List.length (filter is_alphabet data) + 1 * 4)%nat by lia.
    now rewrite Nat.Div0.mod_add.
Qed.

(** A run of pads closes a quad only where two characters of it are missing
    and two pads follow, or one is missing and one pad follows. *)
Lemma a2b_loop_pads m :
  forall quad_pos leftchar out,
    (quad_pos = 1%N \/ (quad_pos = 2%N /\ (m < 2)%nat) \/ (quad_pos = 3%N /\ m = O)) ->
    exists msg,
      a2b_loop (repeat PAD m) quad_pos leftchar 0%N out = Raise (binascii_Error msg).
Proof.
  intros q l out [-> | [[-> Hm] | [-> ->]]].
  - assert (Hskip : forall k p, a2b_loop (repeat PAD k) 1%N l p out
                                = a2b_loop [] 1%N l p out).
    { induction k as [|k IHk]; intros p; [reflexivity | exact (IHk p)]. }
    rewrite Hskip. cbn. eauto.
  - destruct m as [|[|m]]; [cbn; eauto | cbn; eauto | lia].
  - cbn. eauto.
Qed.

Lemma a2b_loop_incomplete (data : list N) m :
  forallb (fun c => negb (c =? PAD)%N) data = true ->
  let n := List.length (filter is_alphabet data) in
  ((n mod 4 = 1) \/ (n mod 4 = 2 /\ m < 2) \/ (n mod 4 = 3 /\ m = 0))%nat ->
  exists msg, a2b_loop (data ++ repeat PAD m) 0%N 0%N 0%N [] = Raise (binascii_Error msg).
Proof.
  intros Hpad n Hn.
  destruct (a2b_loop_data data Hpad (repeat PAD m) 0%N 0%N 0%N []) as (l & out & Hrun);
    [lia|].
  rewrite Hrun. change (N.to_nat 0 + List.length (filter is_alphabet data))%nat with n.
  assert (Hsome : filter is_alphabet data <> []).
  { intros Hnil. subst n. rewrite Hnil in Hn. cbn in Hn. lia. }
  destruct (filter is_alphabet data) as [|x xs] eqn:Hfilter; [now elim Hsome|].
  apply a2b_loop_pads.
  destruct Hn as [-> | [[-> Hm] | [-> ->]]]; auto.
Qed.

Lemma no_pad_codes (s : bytes) :
  no_pad s = true -> forallb (fun c => negb (c =? PAD)%N) (map Byte.to_N s) = true.
Proof.
  unfold no_pad. induction s as [|c s IH]; simpl; [reflexivity|].
  intros H. apply andb_prop in H as [Hc Hs].
  rewrite (IH Hs), andb_true_r.
  destruct c; first [reflexivity | discriminate Hc].
Qed.

(** C5, as the specification states it, fails: the text [YWJj!] is not valid
    base64 (it holds a character outside the alphabet) and the text
    [abc=def] is not either (data after the pad), yet the validator returns
    bytes for both, the first with [!] dropped and the second cut at the
    pad; no error of any class is raised. *)
Lemma validate_signature_accepts_invalid_base64 :
  is_valid_base64 [x59; x57; x4a; x6a; x21] = false
  /\ validate_signature [x59; x57; x4a; x6a; x21] = Ok [x61; x62; x63]
  /\ is_valid_base64 [x61; x62; x63; x3d; x64; x65; x66] = false
  /\ validate_signature [x61; x62; x63; x3d; x64; x65; x66] = Ok [x69; xb7]
  /\ new_Signature (lit "bittensor") (lit "5Test") 1 [x59; x57; x4a; x6a; x21]
     = Ok {| signature_type := lit "bittensor"; signatory := lit "5Test";
             timestamp_ns := 1; signature := [x61; x62; x63] |}.
Proof. repeat split; reflexivity. Qed.

(** C5 (amended): decoding the signature field either returns bytes or
    fails with [binascii.Error], the one error class of the validator (a
    [ValueError], which the [Signature] constructor reports as pydantic's
    [ValidationError]; there is no [MalformedSignatureError]).  It does fail
    for every text made of characters other than the pad followed by [m]
    pads, when the number of its alphabet characters is one more than a
    multiple of four, or two more with fewer than two pads, or three more with
    no pad: a last quad left incomplete. *)
Theorem validate_signature_malformed (s : bytes) :
  ((exists decoded, validate_signature s = Ok decoded)
   \/ (exists msg, validate_signature s = Raise (binascii_Error msg)))
  /\ (forall data m,
        s = data ++ repeat x3d m ->
        no_pad data = true ->
        (data_chars data mod 4 = 1
         \/ (data_chars data mod 4 = 2 /\ m < 2)
         \/ (data_chars data mod 4 = 3 /\ m = 0))%nat ->
        exists msg,
          validate_signature s = Raise (binascii_Error msg)
          /\ isinstance (binascii_Error msg) cls_ValueError = true
          /\ forall type who ts,
               new_Signature type who ts s = Raise (pydantic_ValidationError msg)).
Proof.
  split.
  - apply a2b_loop_total.
  - intros data m -> Hpad Hmod.
    assert (Hrun : exists msg,
               validate_signature (data ++ repeat x3d m) = Raise (binascii_Error msg)).
    { unfold validate_signature, b64decode. rewrite map_app, map_repeat.
      apply a2b_loop_incomplete; [now apply no_pad_codes | exact Hmod]. }
    destruct Hrun as [msg Hmsg]. exists msg. repeat split; [exact Hmsg|].
    intros type who ts. unfold new_Signature. now rewrite Hmsg.
Qed.

(** The text [ab=], which lacks a pad, at the theorem. *)
Lemma validate_signature_malformed_witness :
  exists msg,
    validate_signature [x61; x62; x3d] = Raise (binascii_Error msg)
    /\ isinstance (binascii_Error msg) cls_ValueError = true
    /\ forall type who ts,
         new_Signature type who ts [x61; x62; x3d]
         = Raise (pydantic_ValidationError msg).
Proof.
  apply (proj2 (validate_signature_malformed [x61; x62; x3d]) [x61; x62] 1%nat).
  - reflexivity.
  - reflexivity.
  - right. left. split; [reflexivity | repeat constructor].
Defined.

Example validate_signature_messages :
  validate_signature [x61; x62; x63; x64; x65]
  = Raise (binascii_Error (lit "Invalid base64-encoded string: number of data characters (5) cannot be 1 more than a multiple of 4"))
  /\ validate_signature [x61; x62; x3d] = Raise (binascii_Error (lit "Incorrect padding")).
Proof. split; reflexivity. Qed.

(** ** Requests *)

Lemma _make_request_run self method url json params headers w :
  let req := {| method := method; url := url; json := json;
                params := params; headers := headers |} in
  _make_request self method url json params headers w =
  (match outcome (reply_to w req) with
   | Response code text => if is_success code then Ok text else Raise (status_error code)
   | NoResponse msg => Raise (httpx_RequestError msg)
   end,
   exchange w req).
Proof.
  unfold _make_request, bind, send. cbv zeta.
  destruct (outcome _) as [code text|msg]; cbn [fst snd]; [|reflexivity].
  destruct (is_success code); reflexivity.
Qed.

Lemma get_job_run validate self job_uuid w :
  get_job validate self job_uuid w =
  (match outcome (reply_to w (get_job_request job_uuid)) with
   | Response code text =>
       if is_success code then
         match validate text with
         | Some r => Ok (_from_response self r)
         | None => Raise (ComputeHordeError (lit "Compute Horde returned malformed response"))
         end
       else Raise (status_error code)
   | NoResponse msg => Raise (httpx_RequestError msg)
   end,
   exchange w (get_job_request job_uuid)).
Proof.
  unfold get_job, bind. rewrite _make_request_run. fold (get_job_request job_uuid).
  destruct (outcome _) as [code text|msg]; [|reflexivity].
  destruct (is_success code); [|reflexivity].
  destruct (validate text); reflexivity.
Qed.

(** C6, as the specification states it, fails: the error raised when the
    facilitator answers 404 for an unknown id and the error raised when it
    answers 500 are of one and the same class, [ComputeHordeError]; neither is
    an instance of a class the other is not. *)
Lemma get_job_404_and_500_same_class :
  exists e404 e500,
    fst (get_job validate_status_name test_client (lit "unknown")
                 (constant_world 404 (lit "Not found"))) = Raise e404
    /\ fst (get_job validate_status_name test_client (lit "job-1")
                    (constant_world 500 (lit "Server error"))) = Raise e500
    /\ type_of e404 = cls_ComputeHordeError
    /\ type_of e500 = cls_ComputeHordeError
    /\ forall c, isinstance e404 c = isinstance e500 c.
Proof.
  eexists. eexists.
  split; [reflexivity|]. split; [reflexivity|].
  split; [reflexivity|]. split; [reflexivity|].
  intros c. reflexivity.
Qed.

(** C6 (amended): for every job id, [get_job] fails with
    [ComputeHordeError] whenever the facilitator answers with a status outside
    2xx, 404 for an unknown id included, and the message names the status
    code; the error is of one class whatever that status is, so the two
    failure kinds are not told apart by type at the caller. *)
Theorem get_job_non_success validate self job_uuid w code text :
  outcome (reply_to w (get_job_request job_uuid)) = Response code text ->
  is_success code = false ->
  get_job validate self job_uuid w
  = (Raise (ComputeHordeError
              (lit "Compute Horde responded with status code " ++ str_of_int code)),
     exchange w (get_job_request job_uuid))
  /\ type_of (status_error code) = cls_ComputeHordeError
  /\ forall code' c, isinstance (status_error code) c = isinstance (status_error code') c.
Proof.
  intros Hreply Hcode. rewrite get_job_run, Hreply, Hcode.
  split; [reflexivity|]. split; [reflexivity|]. intros code' c. reflexivity.
Qed.

Lemma get_job_non_success_witness :
  get_job validate_status_name test_client (lit "unknown")
          (constant_world 404 (lit "Not found"))
  = (Raise (ComputeHordeError
              (lit "Compute Horde responded with status code " ++ str_of_int 404)),
     exchange (constant_world 404 (lit "Not found")) (get_job_request (lit "unknown")))
  /\ type_of (status_error 404) = cls_ComputeHordeError
  /\ forall code' c, isinstance (status_error 404) c = isinstance (status_error code') c.
Proof.
  apply (get_job_non_success validate_status_name test_client (lit "unknown")
           (constant_world 404 (lit "Not found")) 404 (lit "Not found"));
    reflexivity.
Defined.

(** ** Refreshing a job *)

Lemma refresh_run validate job w :
  refresh_from_facilitator validate job w =
  match get_job validate (_client job) (uuid job) w with
  | (Ok new_job, w') => (Ok tt, with_status job (status new_job) (result new_job), w')
  | (Raise e, w') => (Raise e, job, w')
  end.
Proof. reflexivity. Qed.

Lemma refresh_success validate job w code text r :
  outcome (reply_to w (get_job_request (uuid job))) = Response code text ->
  is_success code = true ->
  validate text = Some r ->
  refresh_from_facilitator validate job w
  = (Ok tt,
     with_status job (response_status r)
                 (match response_stdout r with
                  | [] => None
                  | _ :: _ => Some {| stdout := response_stdout r |}
                  end),
     exchange w (get_job_request (uuid job))).
Proof.
  intros Hreply Hcode Hparse.
  rewrite refresh_run, get_job_run, Hreply, Hcode, Hparse. reflexivity.
Qed.

(** C2, as the specification states it, fails: a job whose status is
    COMPLETED is refreshed while the facilitator reports FAILED; the refresh
    returns normally and the stored status is now FAILED. *)
Lemma refresh_overwrites_terminal_status :
  is_terminal (status (test_job COMPLETED)) = true
  /\ exists w',
       refresh_from_facilitator validate_status_name (test_job COMPLETED)
                                (constant_world 200 (lit "FAILED"))
       = (Ok tt, test_job FAILED, w').
Proof. split; [reflexivity|]. eexists. reflexivity. Qed.

(** C2 (amended): a refresh stores whatever status and result the
    facilitator reports, whatever the status the job held before, terminal or
    not, and raises nothing for it; it raises only what [get_job] raises, and
    then the job is left as it was. *)
Theorem refresh_stores_reported_status validate job w :
  (forall code text r,
     outcome (reply_to w (get_job_request (uuid job))) = Response code text ->
     is_success code = true ->
     validate text = Some r ->
     refresh_from_facilitator validate job w
     = (Ok tt,
        with_status job (response_status r)
                    (match response_stdout r with
                     | [] => None
                     | _ :: _ => Some {| stdout := response_stdout r |}
                     end),
        exchange w (get_job_request (uuid job))))
  /\ (forall e w',
        get_job validate (_client job) (uuid job) w = (Raise e, w') ->
        refresh_from_facilitator validate job w = (Raise e, job, w')).
Proof.
  split.
  - apply refresh_success.
  - intros e w' Hget. rewrite refresh_run, Hget. reflexivity.
Qed.

Lemma refresh_stores_reported_status_witness :
  refresh_from_facilitator validate_status_name (test_job COMPLETED)
                           (constant_world 200 (lit "REJECTED"))
  = (Ok tt, with_status (test_job COMPLETED) REJECTED None,
     exchange (constant_world 200 (lit "REJECTED")) (get_job_request (lit "job-1"))).
Proof.
  apply (proj1 (refresh_stores_reported_status validate_status_name (test_job COMPLETED)
                  (constant_world 200 (lit "REJECTED")))
           200 (lit "REJECTED")
           {| response_uuid := lit "job-1"; response_status := REJECTED;
              response_stdout := [] |});
    reflexivity.
Defined.

(** ** Feedback *)

Lemma submit_feedback_run x d job w :
  submit_feedback x d job w =
  (match outcome (reply_to w (feedback_request (uuid job) x d)) with
   | Response code _ => if is_success code then Ok tt else Raise (status_error code)
   | NoResponse msg => Raise (httpx_RequestError msg)
   end,
   job,
   exchange w (feedback_request (uuid job) x d)).
Proof.
  unfold submit_feedback, _submit_job_feedback, bind.
  assert (Hreq : forall json,
             json = Net.json (feedback_request (uuid job) x d) ->
             {| method := lit "PUT"; url := lit "/jobs/" ++ uuid job ++ lit "/feedback/";
                json := json; params := None; headers := None |}
             = feedback_request (uuid job) x d).
  { intros json ->. reflexivity. }
  rewrite _make_request_run. cbv zeta.
  rewrite Hreq by (destruct d; reflexivity).
  destruct (outcome _) as [code text|msg]; [|reflexivity].
  destruct (is_success code); reflexivity.
Qed.

(** C3, as the specification states it, fails: feedback with correctness
    1.5, which lies outside [0, 1], raises nothing; the request is issued
    with the value as given and the call returns normally. *)
Lemma submit_feedback_sends_out_of_range_value :
  in_unit_interval (3 # 2) = false
  /\ exists w',
       submit_feedback (3 # 2) None (test_job COMPLETED) (constant_world 200 [])
       = (Ok tt, test_job COMPLETED, w')
       /\ map fst (exchanges w')
          = [ {| method := lit "PUT"; url := lit "/jobs/job-1/feedback/";
                 json := Some (JDict [(lit "result_correctness", JFloat (3 # 2))]);
                 params := None; headers := None |} ].
Proof. split; [reflexivity|]. eexists. split; reflexivity. Qed.

(** C3 (amended): for every job and every correctness value, inside
    [0.0, 1.0] or not, feedback is not validated locally: exactly one PUT
    request to the job's feedback path is issued, carrying the value as
    given, and the call returns normally when the facilitator answers with a
    2xx status; it fails with [ComputeHordeError] on any other status.  In
    particular 0.0 and 1.0 are accepted and sent. *)
Theorem submit_feedback_always_sends x d job w :
  exists r,
    submit_feedback x d job w = (r, job, exchange w (feedback_request (uuid job) x d))
    /\ exchanges (exchange w (feedback_request (uuid job) x d))
       = (feedback_request (uuid job) x d, reply_to w (feedback_request (uuid job) x d))
         :: exchanges w
    /\ match outcome (reply_to w (feedback_request (uuid job) x d)) with
       | Response code _ =>
           if is_success code then r = Ok tt
           else r = Raise (ComputeHordeError
                             (lit "Compute Horde responded with status code "
                              ++ str_of_int code))
       | NoResponse msg => r = Raise (httpx_RequestError msg)
       end.
Proof.
  rewrite submit_feedback_run. eexists. split; [reflexivity|]. split; [reflexivity|].
  destruct (outcome _) as [code text|msg]; [|reflexivity].
  destruct (is_success code); reflexivity.
Qed.

Example submit_feedback_accepts_bounds :
  fst (fst (submit_feedback 0 None (test_job COMPLETED) (constant_world 200 []))) = Ok tt
  /\ fst (fst (submit_feedback 1 None (test_job COMPLETED) (constant_world 200 []))) = Ok tt.
Proof. split; reflexivity. Qed.

(** ** The canonical payload: stripping the scheme and the host *)

Section PathStripping.

Variable rt : PyRuntime.

Lemma prefix_len_split p s :
  s = firstn (prefix_len p s) s ++ skipn (prefix_len p s) s
  /\ forallb p (firstn (prefix_len p s) s) = true
  /\ (skipn (prefix_len p s) s = []
      \/ exists c r, skipn (prefix_len p s) s = c :: r /\ p c = false).
Proof.
  induction s as [|c s IH]; simpl.
  - repeat split; auto.
  - destruct (p c) eqn:Hc; simpl.
    + destruct IH as (Hs & Hall & Hrest). rewrite Hc, Hall.
      repeat split; [now f_equal | exact Hrest].
    + repeat split. right. eauto.
Qed.

Lemma prefix_len_app p a b :
  forallb p a = true -> prefix_len p (a ++ b) = (List.length a + prefix_len p b)%nat.
Proof.
  induction a as [|c a IH]; simpl; [reflexivity|].
  intros H. apply andb_prop in H as [Hc Ha]. now rewrite Hc, IH.
Qed.

(** A greedy class at the end of the pattern takes the whole run. *)
Lemma greedy_last cls s :
  Re.greedy rt cls (fun _ => Some O) s
  = match prefix_len (Re.in_class rt cls) s with
    | O => None
    | S n => Some (S n)
    end.
Proof.
  induction s as [|c s IH]; simpl; [reflexivity|].
  destruct (Re.in_class rt cls c); [|reflexivity].
  rewrite IH. destruct (prefix_len _ s); reflexivity.
Qed.

(** Before a continuation that refuses the characters of the class, giving
    characters back never helps: the run is taken whole. *)
Lemma greedy_then cls k s :
  (forall x s', Re.in_class rt cls x = true -> k (x :: s') = None) ->
  Re.greedy rt cls k s
  = match prefix_len (Re.in_class rt cls) s with
    | O => None
    | S n => option_map (Nat.add (S n)) (k (skipn (S n) s))
    end.
Proof.
  intros Hk. induction s as [|c s IH]; simpl; [reflexivity|].
  destruct (Re.in_class rt cls c) eqn:Hc; [|reflexivity].
  rewrite IH. destruct (prefix_len (Re.in_class rt cls) s) as [|n] eqn:Hn.
  - simpl. destruct (k s); reflexivity.
  - change (skipn (S (S n)) (c :: s)) with (skipn (S n) s).
    destruct (k (skipn (S n) s)); [reflexivity|].
    destruct s as [|d s]; [discriminate Hn|].
    simpl in Hn. destruct (Re.in_class rt cls d) eqn:Hd; [|discriminate Hn].
    now rewrite (Hk d s Hd).
Qed.

Lemma word_is_not_colon x : Re.is_word rt x = true -> (x =? 58)%N = false.
Proof.
  intros Hx. destruct (x =? 58)%N eqn:E; [|reflexivity].
  apply N.eqb_eq in E. subst x. discriminate Hx.
Qed.

Lemma separator_and_host_match s :
  Re.match_here rt [Re.Lit 58%N; Re.Lit 47%N; Re.Lit 47%N; Re.Plus (Re.NotChar 47%N)] false s
  = match after_separator s with
    | Some r =>
        match prefix_len not_slash r with
        | O => None
        | S m => Some (3 + S m)%nat
        end
    | None => None
    end.
Proof.
  unfold after_separator.
  destruct s as [|c1 s]; [reflexivity|]. cbn [Re.match_here].
  destruct (c1 =? 58)%N.
  2:{ destruct s as [|c2 [|c3 r]]; reflexivity. }
  destruct s as [|c2 s]; [reflexivity|]. cbn [Re.match_here].
  destruct (c2 =? 47)%N.
  2:{ destruct s as [|c3 r]; reflexivity. }
  destruct s as [|c3 r]; [reflexivity|]. cbn [Re.match_here].
  destruct (c3 =? 47)%N; [|reflexivity].
  rewrite greedy_last.
  change (Re.in_class rt (Re.NotChar 47%N)) with not_slash.
  cbn [andb].
  destruct (prefix_len not_slash r) as [|m]; reflexivity.
Qed.

Lemma pattern_match url :
  Re.match_here rt _REMOVE_URL_SCHEME_N_HOST_RE true url = scheme_host_len rt url.
Proof.
  unfold _REMOVE_URL_SCHEME_N_HOST_RE, scheme_host_len.
  change (chr ":") with 58%N. change (chr "/") with 47%N.
  set (tail := [Re.Lit 58%N; Re.Lit 47%N; Re.Lit 47%N; Re.Plus (Re.NotChar 47%N)]).
  change (Re.match_here rt (Re.Bol :: Re.Plus Re.Word :: tail) true url)
    with (Re.greedy rt Re.Word (Re.match_here rt tail false) url).
  rewrite greedy_then.
  2:{ intros x s' Hx. cbn [Re.in_class] in Hx. subst tail. cbn [Re.match_here].
      now rewrite (word_is_not_colon x Hx). }
  change (Re.in_class rt Re.Word) with (Re.is_word rt).
  destruct (prefix_len (Re.is_word rt) url) as [|n]; [reflexivity|].
  subst tail. rewrite separator_and_host_match.
  destruct (after_separator (skipn (S n) url)) as [r|]; [|reflexivity].
  destruct (prefix_len not_slash r) as [|m]; [reflexivity|].
  cbn [option_map]. f_equal. lia.
Qed.

Lemma after_separator_some s r :
  after_separator s = Some r -> s = lit "://" ++ r.
Proof.
  unfold after_separator. destruct s as [|c1 [|c2 [|c3 r']]]; try discriminate.
  destruct (c1 =? 58)%N eqn:E1; [|discriminate].
  destruct (c2 =? 47)%N eqn:E2; [|discriminate].
  destruct (c3 =? 47)%N eqn:E3; [|discriminate].
  apply N.eqb_eq in E1, E2, E3. subst. intros H. now injection H as ->.
Qed.

Lemma sub_scan_anchored re k s :
  Re.sub_scan rt (Re.Bol :: re) [] false k s = skipn k s.
Proof.
  revert k. induction s as [|c s IH]; intros [|k]; simpl; try reflexivity.
  - now rewrite IH.
  - apply IH.
Qed.

Lemma sub_anchored re s :
  Re.sub rt (Re.Bol :: re) [] s
  = match Re.match_here rt (Re.Bol :: re) true s with
    | Some n => skipn n s
    | None => s
    end.
Proof.
  unfold Re.sub. destruct s as [|c s]; cbn [Re.sub_scan].
  - destruct (Re.match_here rt (Re.Bol :: re) true []) as [[|n]|]; reflexivity.
  - destruct (Re.match_here rt (Re.Bol :: re) true (c :: s)) as [[|n]|].
    + simpl. now rewrite sub_scan_anchored.
    + simpl. now rewrite sub_scan_anchored.
    + now rewrite sub_scan_anchored.
Qed.

Lemma reduced_url_spec url :
  Re.sub rt _REMOVE_URL_SCHEME_N_HOST_RE [] url
  = match scheme_host_len rt url with
    | Some n => skipn n url
    | None => url
    end.
Proof.
  rewrite <- pattern_match. apply sub_anchored.
Qed.

Lemma not_slash_false c : not_slash c = false -> c = chr "/".
Proof.
  unfold not_slash. intros H. apply negb_false_iff, N.eqb_eq in H. exact H.
Qed.

(** When the pattern matches, what is removed is a scheme, [://] and a host. *)
Lemma scheme_host_len_some url n :
  scheme_host_len rt url = Some n ->
  exists scheme host,
    url = scheme ++ lit "://" ++ host ++ skipn n url
    /\ scheme <> [] /\ forallb (Re.is_word rt) scheme = true
    /\ host <> [] /\ forallb not_slash host = true
    /\ (skipn n url = [] \/ exists r, skipn n url = chr "/" :: r).
Proof.
  unfold scheme_host_len.
  destruct (prefix_len_split (Re.is_word rt) url) as (Hurl & Hword & _).
  destruct (prefix_len (Re.is_word rt) url) as [|a] eqn:Ha; [discriminate|].
  destruct (after_separator (skipn (S a) url)) as [r|] eqn:Hsep; [|discriminate].
  apply after_separator_some in Hsep. rename Hsep into Hskip.
  destruct (prefix_len_split not_slash r) as (Hr & Hhost & Hrest).
  destruct (prefix_len not_slash r) as [|m] eqn:Hm; [discriminate|].
  intros Hn. injection Hn as <-.
  assert (Hend : skipn (S a + 3 + S m) url = skipn (S m) r).
  { replace (S a + 3 + S m)%nat with ((3 + S m) + S a)%nat by lia.
    rewrite <- skipn_skipn, Hskip. reflexivity. }
  exists (firstn (S a) url), (firstn (S m) r).
  change (S (a + 3 + S m)) with (S a + 3 + S m)%nat.
  rewrite Hend. repeat split.
  - rewrite Hurl at 1. f_equal. rewrite Hskip. now rewrite <- Hr.
  - destruct url; [discriminate Ha | discriminate].
  - exact Hword.
  - destruct r; [discriminate Hm | discriminate].
  - exact Hhost.
  - destruct Hrest as [Hnil | (c & r' & Hcr & Hc)]; [now left|].
    right. exists r'. rewrite Hcr. f_equal. now apply not_slash_false.
Qed.

(** When it does not, the URL has no such prefix. *)
Lemma scheme_host_len_none url :
  scheme_host_len rt url = None -> ~ has_scheme_and_host rt url.
Proof.
  intros Hnone (scheme & host & rest & Hurl & Hs & Hword & Hh & Hhost).
  unfold scheme_host_len in Hnone. subst url.
  rewrite (prefix_len_app _ scheme _ Hword) in Hnone.
  change (lit "://" ++ host ++ rest) with (58%N :: 47%N :: 47%N :: (host ++ rest)) in Hnone.
  cbn [prefix_len] in Hnone.
  change (Re.is_word rt 58%N) with false in Hnone.
  rewrite Nat.add_0_r in Hnone.
  destruct scheme as [|c scheme]; [now apply Hs|].
  cbn [List.length] in Hnone.
  replace (skipn (S (List.length scheme)) ((c :: scheme) ++ 58%N :: 47%N :: 47%N :: host ++ rest))
    with (58%N :: 47%N :: 47%N :: host ++ rest) in Hnone.
  2:{ change (S (List.length scheme)) with (List.length (c :: scheme)).
      now rewrite skipn_app, skipn_all, Nat.sub_diag. }
  cbn [after_separator N.eqb Pos.eqb andb] in Hnone.
  rewrite (prefix_len_app _ host _ Hhost) in Hnone.
  destruct host as [|h host]; [now apply Hh|].
  discriminate Hnone.
Qed.

End PathStripping.

(** C7: the action of the canonical payload is the method in upper case, a
    space, and the URL with at most one leading scheme://host prefix removed
    (a non-empty run of word characters, [://], a non-empty run of characters
    other than [/], each run taken whole) and nothing else changed; a URL
    without such a prefix is used whole.  For GET and
    https://host.example/api/v1/jobs/ the action is GET /api/v1/jobs/. *)
Theorem signature_payload_action rt method url headers json :
  (exists reduced,
     signature_payload rt method url headers json
     = JDict [ (lit "action", JStr (upper rt method ++ lit " " ++ reduced));
               (lit "json", match json with Some j => j | None => JNull end) ]
     /\ ((exists scheme host,
            url = scheme ++ lit "://" ++ host ++ reduced
            /\ scheme <> [] /\ forallb (Re.is_word rt) scheme = true
            /\ host <> [] /\ forallb not_slash host = true
            /\ (reduced = [] \/ exists r, reduced = chr "/" :: r))
         \/ (reduced = url /\ ~ has_scheme_and_host rt url)))
  /\ signature_payload rt (lit "GET") (lit "https://host.example/api/v1/jobs/") headers json
     = JDict [ (lit "action", JStr (lit "GET /api/v1/jobs/"));
               (lit "json", match json with Some j => j | None => JNull end) ]
  /\ signature_payload rt (lit "get") (lit "/api/v1/jobs/") headers json
     = JDict [ (lit "action", JStr (lit "GET /api/v1/jobs/"));
               (lit "json", match json with Some j => j | None => JNull end) ].
Proof.
  split; [|split; reflexivity].
  unfold signature_payload. rewrite reduced_url_spec.
  destruct (scheme_host_len rt url) as [n|] eqn:Hlen.
  - exists (skipn n url). split; [reflexivity|]. left.
    destruct (scheme_host_len_some rt url n Hlen) as (scheme & host & H).
    exists scheme, host. exact H.
  - exists url. split; [reflexivity|]. right. split; [reflexivity|].
    now apply scheme_host_len_none.
Qed.

Example strip_examples :
  Re.sub ascii_runtime _REMOVE_URL_SCHEME_N_HOST_RE [] (lit "http://a://b/c") = lit "//b/c"
  /\ Re.sub ascii_runtime _REMOVE_URL_SCHEME_N_HOST_RE [] (lit "http:///x") = lit "http:///x"
  /\ Re.sub ascii_runtime _REMOVE_URL_SCHEME_N_HOST_RE [] (lit "a://b") = []
  /\ Re.sub ascii_runtime _REMOVE_URL_SCHEME_N_HOST_RE [] (lit "ht-tp://x/y") = lit "ht-tp://x/y"
  /\ Re.sub ascii_runtime _REMOVE_URL_SCHEME_N_HOST_RE [] (lit "x http://h/p") = lit "x http://h/p"
  /\ Re.sub ascii_runtime _REMOVE_URL_SCHEME_N_HOST_RE [] (lit "http://h/http://k/z")
     = lit "/http://k/z".
Proof. repeat split; reflexivity. Qed.

(** ** The order of keys *)

Lemma str_ltb_irrefl a : str_ltb a a = false.
Proof.
  induction a as [|x a IH]; simpl; [reflexivity|].
  now rewrite N.ltb_irrefl.
Qed.

Lemma str_ltb_asym a : forall b, str_ltb a b = true -> str_ltb b a = false.
Proof.
  induction a as [|x a IH]; intros [|y b]; simpl; try easy.
  destruct (N.ltb_spec x y), (N.ltb_spec y x); try lia; try easy.
  intros Hlt. now apply IH.
Qed.

Lemma str_ltb_trans a : forall b c, str_ltb a b = true -> str_ltb b c = true -> str_ltb a c = true.
Proof.
  induction a as [|x a IH]; intros [|y b] [|z c]; simpl; try easy.
  destruct (N.ltb_spec x y), (N.ltb_spec y x), (N.ltb_spec y z), (N.ltb_spec z y),
    (N.ltb_spec x z), (N.ltb_spec z x); try lia; try easy.
  apply IH.
Qed.

Lemma str_ltb_total a : forall b, str_ltb a b = false -> str_ltb b a = false -> a = b.
Proof.
  induction a as [|x a IH]; intros [|y b]; simpl; try easy.
  destruct (N.ltb_spec x y), (N.ltb_spec y x); try lia; try easy.
  intros Hab Hba. f_equal; [lia | now apply IH].
Qed.

Lemma str_leb_total a b : str_leb a b = false -> str_leb b a = true.
Proof.
  unfold str_leb. intros H. apply negb_false_iff in H.
  now rewrite (str_ltb_asym _ _ H).
Qed.

Lemma str_leb_antisym a b : str_leb a b = true -> str_leb b a = true -> a = b.
Proof.
  unfold str_leb. intros H1 H2. apply negb_true_iff in H1, H2.
  now apply str_ltb_total.
Qed.

Lemma str_leb_trans a b c : str_leb a b = true -> str_leb b c = true -> str_leb a c = true.
Proof.
  unfold str_leb. intros H1 H2. apply negb_true_iff in H1, H2. apply negb_true_iff.
  destruct (str_ltb c a) eqn:Hca; [|reflexivity].
  destruct (str_ltb b c) eqn:Hbc.
  - now rewrite (str_ltb_trans _ _ _ Hbc Hca) in H1.
  - assert (b = c) by now apply str_ltb_total.
    subst c. now rewrite Hca in H1.
Qed.

Lemma insert_item_perm x l : Permutation (x :: l) (insert_item x l).
Proof.
  induction l as [|y l IH]; simpl; [reflexivity|].
  destruct (str_leb (fst x) (fst y)); [reflexivity|].
  rewrite perm_swap. now apply perm_skip.
Qed.

Lemma sort_items_perm l : Permutation l (sort_items l).
Proof.
  induction l as [|x l IH]; simpl; [reflexivity|].
  rewrite <- insert_item_perm. now apply perm_skip.
Qed.

Lemma insert_item_sorted x l : Sorted key_le l -> Sorted key_le (insert_item x l).
Proof.
  induction l as [|y l IH]; simpl; intros Hs.
  - repeat constructor.
  - destruct (str_leb (fst x) (fst y)) eqn:Hxy.
    + constructor; [exact Hs | constructor; exact Hxy].
    + apply Sorted_inv in Hs as [Hs Hhd]. constructor; [now apply IH|].
      destruct l as [|z l]; simpl.
      * constructor. now apply str_leb_total.
      * destruct (str_leb (fst x) (fst z)); constructor.
        -- now apply str_leb_total.
        -- now apply HdRel_inv in Hhd.
Qed.

Lemma sort_items_sorted l : Sorted key_le (sort_items l).
Proof.
  induction l as [|x l IH]; simpl; [constructor | now apply insert_item_sorted].
Qed.

(** Two insertions with different keys commute. *)
Lemma insert_item_comm x y l :
  fst x <> fst y ->
  insert_item x (insert_item y l) = insert_item y (insert_item x l).
Proof.
  intros Hne. induction l as [|z l IH]; simpl.
  - destruct (str_leb (fst x) (fst y)) eqn:Hxy, (str_leb (fst y) (fst x)) eqn:Hyx;
      try reflexivity.
    + exfalso. apply Hne. now apply str_leb_antisym.
    + apply str_leb_total in Hxy. congruence.
  - destruct (str_leb (fst y) (fst z)) eqn:Hyz, (str_leb (fst x) (fst z)) eqn:Hxz; simpl;
      destruct (str_leb (fst x) (fst y)) eqn:Hxy, (str_leb (fst y) (fst x)) eqn:Hyx;
      rewrite ?Hyz, ?Hxz; try reflexivity;
      try (exfalso; apply Hne; now apply str_leb_antisym);
      try (apply str_leb_total in Hxy; congruence);
      try (rewrite (str_leb_trans _ _ _ Hxy Hyz) in Hxz; discriminate);
      try (rewrite (str_leb_trans _ _ _ Hyx Hxz) in Hyz; discriminate);
      now rewrite IH.
Qed.

Lemma sort_items_permutation l l' :
  Permutation l l' -> NoDup (map fst l) -> sort_items l = sort_items l'.
Proof.
  induction 1 as [| x l l' Hp IH | x y l | l l' l'' Hp1 IH1 Hp2 IH2]; intros Hnd.
  - reflexivity.
  - simpl. inversion Hnd; subst. now rewrite IH.
  - simpl. apply insert_item_comm.
    simpl in Hnd. inversion Hnd as [|? ? Hin _]; subst.
    intros Heq. apply Hin. left. now symmetry.
  - rewrite IH1 by exact Hnd. apply IH2.
    eapply Permutation_NoDup; [|exact Hnd]. now apply Permutation_map.
Qed.

(** ** The JSON text is ASCII *)

Lemma JsonValue_induction (P : JsonValue -> Prop) :
  P JNull ->
  (forall b, P (JBool b)) ->
  (forall n, P (JInt n)) ->
  (forall x, P (JFloat x)) ->
  (forall s, P (JStr s)) ->
  (forall items, Forall P items -> P (JList items)) ->
  (forall items, Forall (fun kv => P (snd kv)) items -> P (JDict items)) ->
  forall v, P v.
Proof.
  intros Hnull Hbool Hint Hfloat Hstr Hlist Hdict.
  fix IH 1. intros [ | b | n | x | s | items | items].
  - exact Hnull.
  - apply Hbool.
  - apply Hint.
  - apply Hfloat.
  - apply Hstr.
  - apply Hlist. induction items as [|v items IHitems]; constructor.
    + apply IH.
    + exact IHitems.
  - apply Hdict. induction items as [|[k v] items IHitems]; constructor.
    + apply IH.
    + exact IHitems.
Qed.

Lemma all_ascii_app a b : all_ascii (a ++ b) = all_ascii a && all_ascii b.
Proof. apply forallb_app. Qed.

Lemma all_ascii_flat_map {A} (f : A -> str) l :
  (forall x, all_ascii (f x) = true) -> all_ascii (flat_map f l) = true.
Proof.
  intros Hf. induction l as [|x l IH]; simpl; [reflexivity|].
  now rewrite all_ascii_app, Hf, IH.
Qed.

Lemma all_ascii_join sep parts :
  all_ascii sep = true -> Forall (fun p => all_ascii p = true) parts ->
  all_ascii (join sep parts) = true.
Proof.
  intros Hsep Hparts. induction Hparts as [|p parts Hp Hrest IH]; [reflexivity|].
  destruct parts as [|q parts]; [exact Hp|].
  change (join sep (p :: q :: parts)) with (p ++ sep ++ join sep (q :: parts)).
  now rewrite !all_ascii_app, Hp, Hsep, IH.
Qed.

Lemma hex_digit_ascii n : all_ascii [hex_digit (N.land n 15)] = true.
Proof.
  assert (Hlt : (N.land n 15 < 16)%N).
  { change 15%N with (N.ones 4). rewrite N.land_ones. now apply N.mod_lt. }
  set (m := N.land n 15) in *.
  unfold all_ascii, hex_digit, is_ascii. cbn [forallb]. rewrite andb_true_r.
  destruct (N.ltb_spec m 10); apply N.ltb_lt; lia.
Qed.

Lemma u_escape_ascii n : all_ascii (u_escape n) = true.
Proof.
  unfold u_escape.
  change (all_ascii (lit "\u" ++ ([hex_digit (N.land (N.shiftr n 12) 15)]
                                  ++ [hex_digit (N.land (N.shiftr n 8) 15)]
                                  ++ [hex_digit (N.land (N.shiftr n 4) 15)]
                                  ++ [hex_digit (N.land n 15)])) = true).
  now rewrite !all_ascii_app, !hex_digit_ascii.
Qed.

Lemma short_escape_ascii c e : short_escape c = Some e -> all_ascii e = true.
Proof.
  unfold short_escape.
  repeat match goal with
         | |- context [if ?b then _ else _] => destruct b
         end; intros H; inversion H; reflexivity.
Qed.

Lemma ascii_escape_char_ascii c : all_ascii (ascii_escape_char c) = true.
Proof.
  unfold ascii_escape_char.
  destruct (short_escape c) as [e|] eqn:He; [now apply (short_escape_ascii c)|].
  destruct ((32 <=? c)%N && (c <=? 126)%N) eqn:Hc.
  - apply andb_prop in Hc as [_ Hc]. apply N.leb_le in Hc.
    unfold all_ascii, is_ascii. cbn [forallb]. rewrite andb_true_r. apply N.ltb_lt. lia.
  - destruct (c <? 65536)%N; [apply u_escape_ascii|].
    now rewrite all_ascii_app, !u_escape_ascii.
Qed.

Lemma py_encode_basestring_ascii_ascii s : all_ascii (py_encode_basestring_ascii s) = true.
Proof.
  unfold py_encode_basestring_ascii.
  rewrite !all_ascii_app, all_ascii_flat_map by apply ascii_escape_char_ascii.
  reflexivity.
Qed.

Lemma string_of_uint_ascii d : all_ascii (lit (NilEmpty.string_of_uint d)) = true.
Proof.
  induction d; simpl; try reflexivity; exact IHd.
Qed.

Lemma str_of_int_ascii n : all_ascii (str_of_int n) = true.
Proof.
  unfold str_of_int, NilZero.string_of_int, NilZero.string_of_uint.
  destruct (Z.to_int n) as [d|d]; destruct d; try reflexivity;
    simpl; apply string_of_uint_ascii.
Qed.

Lemma Forall_sort_items (P : str * str -> Prop) l : Forall P l -> Forall P (sort_items l).
Proof.
  intros H. eapply Permutation_Forall; [apply sort_items_perm | exact H].
Qed.

Lemma write_ascii st :
  all_ascii (item_separator st) = true ->
  all_ascii (key_separator st) = true ->
  (forall s, all_ascii (encode_str st s) = true) ->
  (forall x, all_ascii (encode_float st x) = true) ->
  forall v, all_ascii (write st v) = true.
Proof.
  intros Hisep Hksep Hstr Hfloat.
  induction v as [ | b | n | x | s | items IH | items IH] using JsonValue_induction.
  - reflexivity.
  - destruct b; reflexivity.
  - apply str_of_int_ascii.
  - apply Hfloat.
  - apply Hstr.
  - cbn [write]. rewrite !all_ascii_app, all_ascii_join; [reflexivity | exact Hisep |].
    apply Forall_map. exact IH.
  - cbn [write]. rewrite !all_ascii_app, all_ascii_join; [reflexivity | exact Hisep |].
    apply Forall_map.
    assert (Hrendered : Forall (fun kv : str * str => all_ascii (snd kv) = true)
                               (map (fun kv => (fst kv, write st (snd kv))) items)).
    { apply Forall_map. exact IH. }
    assert (Hordered : Forall (fun kv : str * str => all_ascii (snd kv) = true)
                              (if sort_keys st
                               then sort_items (map (fun kv => (fst kv, write st (snd kv))) items)
                               else map (fun kv => (fst kv, write st (snd kv))) items)).
    { destruct (sort_keys st); [now apply Forall_sort_items | exact Hrendered]. }
    eapply Forall_impl; [|exact Hordered].
    intros kv Hkv. cbv beta in Hkv |- *.
    rewrite !all_ascii_app, Hstr, Hksep. exact Hkv.
Qed.

Lemma json_dumps_sort_keys_ascii fr v :
  (forall x, all_ascii (fr x) = true) -> all_ascii (json_dumps_sort_keys fr v) = true.
Proof.
  intros Hfr. apply write_ascii; try reflexivity; try exact Hfr.
  apply py_encode_basestring_ascii_ascii.
Qed.

Lemma encode_utf8_ascii s : all_ascii s = true -> encode_utf8 s = Some (ascii_bytes s).
Proof.
  induction s as [|c s IH]; simpl; [reflexivity|].
  intros H. apply andb_prop in H as [Hc Hs]. rewrite (IH Hs).
  unfold utf8_char. unfold is_ascii in Hc. now rewrite Hc.
Qed.

(** The text of a dict does not depend on the order its items were
    inserted in. *)
Lemma json_dumps_sort_keys_order fr items items' :
  Permutation items items' -> NoDup (map fst items) ->
  json_dumps_sort_keys fr (JDict items) = json_dumps_sort_keys fr (JDict items').
Proof.
  intros Hperm Hnd. unfold json_dumps_sort_keys. cbn [write sort_keys].
  do 3 f_equal. f_equal. apply sort_items_permutation.
  - now apply Permutation_map.
  - now rewrite map_map.
Qed.

(** ** The digest *)

Lemma byte_of_N_to_N n : Byte.to_N (byte_of_N n) = (n mod 256)%N.
Proof.
  unfold byte_of_N. destruct (Byte.of_N (n mod 256)) as [b|] eqn:E.
  - now apply Byte.to_of_N.
  - apply Byte.of_N_None_iff in E.
    assert (n mod 256 < 256)%N by now apply N.mod_lt. lia.
Qed.

Lemma byte_of_Z_value z : 0 <= z < 256 -> Z.of_N (Byte.to_N (byte_of_Z z)) = z.
Proof.
  intros Hz. unfold byte_of_Z. rewrite byte_of_N_to_N.
  rewrite Z.mod_small by exact Hz.
  rewrite N.mod_small by lia. lia.
Qed.

Lemma int_from_bytes_big_snoc l x :
  int_from_bytes_big (l ++ [x]) = 256 * int_from_bytes_big l + Z.of_N (Byte.to_N x).
Proof. unfold int_from_bytes_big. now rewrite fold_left_app. Qed.

Lemma be_digits_length len : forall n, List.length (be_digits len n) = len.
Proof.
  induction len as [|k IH]; intros n; simpl; [reflexivity|].
  rewrite length_app, IH. simpl. lia.
Qed.

Lemma be_digits_value len :
  forall n, 0 <= n -> int_from_bytes_big (be_digits len n) = n mod 2 ^ (8 * Z.of_nat len).
Proof.
  induction len as [|k IH]; intros n Hn.
  - simpl. now rewrite Z.mod_1_r.
  - cbn [be_digits]. rewrite int_from_bytes_big_snoc.
    rewrite Z.shiftr_div_pow2 by lia.
    change 255 with (Z.ones 8). rewrite Z.land_ones by lia.
    rewrite IH by (apply Z.div_pos; lia).
    rewrite byte_of_Z_value by (apply Z.mod_pos_bound; lia).
    replace (8 * Z.of_nat (S k)) with (8 + 8 * Z.of_nat k) by lia.
    rewrite Z.pow_add_r by lia.
    rewrite (Z.rem_mul_r n (2 ^ 8) (2 ^ (8 * Z.of_nat k))) by lia.
    lia.
Qed.

(** [to_bytes(8, "big")] of a timestamp that fits 64 bits: eight bytes that
    read back as the timestamp. *)
Lemma timestamp_to_bytes n :
  0 <= n < 2 ^ 64 ->
  int_to_bytes_big n 8 = Some (be_digits 8 n)
  /\ List.length (be_digits 8 n) = 8%nat
  /\ int_from_bytes_big (be_digits 8 n) = n.
Proof.
  intros Hn. split; [|split].
  - unfold int_to_bytes_big.
    change (Z.shiftl 1 (8 * Z.of_nat 8)) with (2 ^ 64).
    destruct (Z.leb_spec 0 n); [|lia]. destruct (Z.ltb_spec n (2 ^ 64)); [|lia].
    reflexivity.
  - apply be_digits_length.
  - rewrite be_digits_value by lia. apply Z.mod_small. exact Hn.
Qed.

Lemma timestamp_overflow n :
  ~ (0 <= n < 2 ^ 64) -> int_to_bytes_big n 8 = None.
Proof.
  intros Hn. unfold int_to_bytes_big.
  change (Z.shiftl 1 (8 * Z.of_nat 8)) with (2 ^ 64).
  destruct (Z.leb_spec 0 n); [|reflexivity].
  destruct (Z.ltb_spec n (2 ^ 64)); [lia | reflexivity].
Qed.

Lemma compress_length h block t last : List.length (Blake2b.compress h block t last) = 8%nat.
Proof. unfold Blake2b.compress. now rewrite length_map, length_seq. Qed.

Lemma absorb_length fuel :
  forall h t data, List.length h = 8%nat -> List.length (Blake2b.absorb fuel h t data) = 8%nat.
Proof.
  induction fuel as [|fuel IH]; intros h t data Hh; simpl; [exact Hh|].
  destruct (List.length data <=? 128)%nat; [apply compress_length|].
  apply IH, compress_length.
Qed.

Lemma le_bytes_length n : forall x, List.length (Blake2b.le_bytes n x) = n.
Proof. induction n as [|n IH]; intros x; simpl; [reflexivity | now rewrite IH]. Qed.

(** The fuel [blake2b] gives is enough: more of it changes nothing. *)
Lemma absorb_fuel fuel :
  forall fuel' h t data,
    (List.length data < fuel)%nat -> (List.length data < fuel')%nat ->
    Blake2b.absorb fuel h t data = Blake2b.absorb fuel' h t data.
Proof.
  induction fuel as [|fuel IH]; intros [|fuel'] h t data Hfuel Hfuel'; try lia.
  cbn [Blake2b.absorb].
  destruct (Nat.leb_spec (List.length data) 128); [reflexivity|].
  apply IH; rewrite length_skipn; lia.
Qed.

(** The digest is 64 bytes, 512 bits. *)
Lemma blake2b_length data : List.length (Blake2b.blake2b data) = 64%nat.
Proof.
  unfold Blake2b.blake2b.
  assert (Hwords : forall l : list Z,
             List.length (flat_map (Blake2b.le_bytes 8) l) = (8 * List.length l)%nat).
  { induction l as [|x l IH]; [reflexivity|].
    cbn [flat_map]. rewrite length_app, le_bytes_length, IH. simpl. lia. }
  rewrite Hwords, absorb_length; reflexivity.
Qed.

(** C8: for a timestamp that fits 64 bits, the digest is the 512-bit
    BLAKE2b hash of the eight big-endian bytes of the timestamp followed by
    the payload bytes; a payload that is not bytes is first written as JSON
    with the keys of every map in lexicographic order, so that the text does
    not depend on the order the items were inserted in. *)
Theorem hash_message_signature_digest rt payload sig :
  0 <= timestamp_ns sig < 2 ^ 64 ->
  (forall x, all_ascii (float_repr rt x) = true) ->
  (exists ts pb,
     int_to_bytes_big (timestamp_ns sig) 8 = Some ts
     /\ List.length ts = 8%nat
     /\ int_from_bytes_big ts = timestamp_ns sig
     /\ pb = match payload with
             | PayloadBytes b => b
             | PayloadJson v => ascii_bytes (json_dumps_sort_keys (float_repr rt) v)
             end
     /\ payload_bytes rt payload = Ok pb
     /\ hash_message_signature rt payload sig = Ok (Blake2b.blake2b (ts ++ pb))
     /\ List.length (Blake2b.blake2b (ts ++ pb)) = 64%nat)
  /\ (forall items,
        exists ordered,
          json_dumps_sort_keys (float_repr rt) (JDict items)
          = lit "{"
            ++ join (lit ", ")
                    (map (fun kv => py_encode_basestring_ascii (fst kv) ++ lit ": " ++ snd kv)
                         ordered)
            ++ lit "}"
          /\ Sorted key_le ordered
          /\ Permutation
               (map (fun kv => (fst kv, json_dumps_sort_keys (float_repr rt) (snd kv))) items)
               ordered)
  /\ (forall items items',
        Permutation items items' -> NoDup (map fst items) ->
        hash_message_signature rt (PayloadJson (JDict items)) sig
        = hash_message_signature rt (PayloadJson (JDict items')) sig).
Proof.
  intros Hts Hfloat.
  destruct (timestamp_to_bytes _ Hts) as (Hbytes & Hlen & Hval).
  assert (Hpb : payload_bytes rt payload
                = Ok match payload with
                     | PayloadBytes b => b
                     | PayloadJson v => ascii_bytes (json_dumps_sort_keys (float_repr rt) v)
                     end).
  { destruct payload as [b|v]; [reflexivity|]. unfold payload_bytes.
    now rewrite encode_utf8_ascii by now apply json_dumps_sort_keys_ascii. }
  split; [|split].
  - eexists. eexists. split; [exact Hbytes|]. split; [exact Hlen|]. split; [exact Hval|].
    split; [reflexivity|]. split; [exact Hpb|]. split; [|apply blake2b_length].
    unfold hash_message_signature. rewrite Hpb. cbn [bind_result]. rewrite Hbytes.
    reflexivity.
  - intros items.
    exists (sort_items (map (fun kv => (fst kv, json_dumps_sort_keys (float_repr rt) (snd kv)))
                            items)).
    split; [reflexivity|]. split; [apply sort_items_sorted | apply sort_items_perm].
  - intros items items' Hperm Hnd. unfold hash_message_signature, payload_bytes.
    now rewrite (json_dumps_sort_keys_order _ items items' Hperm Hnd).
Qed.

Lemma hash_message_signature_digest_witness :
  exists ts pb,
    int_to_bytes_big 1700000000000000000 8 = Some ts
    /\ List.length ts = 8%nat
    /\ int_from_bytes_big ts = 1700000000000000000
    /\ pb = ascii_bytes (json_dumps_sort_keys (float_repr ascii_runtime)
                                              (JDict [(lit "a", JNull); (lit "b", JInt 1)]))
    /\ hash_message_signature ascii_runtime
         (PayloadJson (JDict [(lit "b", JInt 1); (lit "a", JNull)]))
         (provisional (BittensorWalletSigner test_keypair) (lit "5Test") 1700000000000000000)
       = Ok (Blake2b.blake2b (ts ++ pb)).
Proof.
  destruct (proj1 (hash_message_signature_digest ascii_runtime
                     (PayloadJson (JDict [(lit "b", JInt 1); (lit "a", JNull)]))
                     (provisional (BittensorWalletSigner test_keypair) (lit "5Test")
                                  1700000000000000000)
                     ltac:(simpl; lia) ltac:(intros x; reflexivity)))
    as (ts & pb & Hts & Hlen & Hval & Hpb & _ & Hhash & _).
  exists ts, pb. repeat split; assumption.
Defined.

Example json_dumps_sorted_text :
  json_dumps_sort_keys (float_repr ascii_runtime)
    (JDict [(lit "b", JInt 1); (lit "a", JList [JBool true; JNull; JStr (lit "x/y")])])
  = lit "{" ++ [34%N] ++ lit "a" ++ [34%N] ++ lit ": [true, null, " ++ [34%N] ++ lit "x/y"
    ++ [34%N] ++ lit "], " ++ [34%N] ++ lit "b" ++ [34%N] ++ lit ": 1}".
Proof. reflexivity. Qed.

Example json_dumps_escapes :
  json_dumps_sort_keys (float_repr ascii_runtime) (JStr [34; 92; 127; 8364; 128512; 1; 10]%N)
  = [34%N] ++ lit "\" ++ [34%N] ++ lit "\\\u007f\u20ac\ud83d\ude00\u0001\n" ++ [34%N].
Proof. reflexivity. Qed.

(** ** Signing *)

Lemma hash_message_signature_timestamp rt payload a b :
  timestamp_ns a = timestamp_ns b ->
  hash_message_signature rt payload a = hash_message_signature rt payload b.
Proof. unfold hash_message_signature. now intros ->. Qed.

(** C9: [sign] returns a signature whose type is the scheme's tag, whose
    signatory is what [get_signatory] returned, whose timestamp is the clock
    in nanoseconds read after that, and whose signature field is what [_sign]
    returned for the digest of that timestamp and the payload; and every
    signature [sign] returns is of this form, so the provisional value with
    the empty field is never what comes back. *)
Theorem sign_returns_completed_signature rt signer payload w :
  (forall who w1 digest signed w2,
     get_signatory signer w = (Ok who, w1) ->
     hash_message_signature rt payload
       (provisional signer who (Qfloor (now w1 * 1000000000))) = Ok digest ->
     _sign signer digest w1 = (Ok signed, w2) ->
     sign rt signer payload w
     = (Ok {| signature_type := scheme_signature_type signer;
              signatory := who;
              timestamp_ns := Qfloor (now w1 * 1000000000);
              signature := signed |},
        w2))
  /\ (forall s w',
        sign rt signer payload w = (Ok s, w') ->
        exists w1 digest,
          get_signatory signer w = (Ok (signatory s), w1)
          /\ signature_type s = scheme_signature_type signer
          /\ timestamp_ns s = Qfloor (now w1 * 1000000000)
          /\ hash_message_signature rt payload s = Ok digest
          /\ _sign signer digest w1 = (Ok (signature s), w')).
Proof.
  split.
  - intros who w1 digest signed w2 Hwho Hhash Hsign.
    unfold sign, bind, time_time_ns, lift, ret. rewrite Hwho.
    change (new_Signature (scheme_signature_type signer) who (Qfloor (now w1 * 1000000000)) [])
      with (Ok (provisional signer who (Qfloor (now w1 * 1000000000)))).
    cbv iota beta. rewrite Hhash, Hsign. reflexivity.
  - intros s w'. unfold sign, bind, time_time_ns, lift, ret.
    destruct (get_signatory signer w) as [[who|e] w1]; [|discriminate].
    change (new_Signature (scheme_signature_type signer) who (Qfloor (now w1 * 1000000000)) [])
      with (Ok (provisional signer who (Qfloor (now w1 * 1000000000)))).
    cbv iota beta.
    destruct (hash_message_signature rt payload _) as [digest|e] eqn:Hhash; [|discriminate].
    destruct (_sign signer digest w1) as [[signed|e] w2] eqn:Hsign; [|discriminate].
    intros H. injection H as <- <-.
    exists w1, digest. repeat split; try reflexivity; try exact Hsign.
    rewrite <- Hhash. now apply hash_message_signature_timestamp.
Qed.

Lemma sign_returns_completed_signature_witness :
  sign ascii_runtime (BittensorWalletSigner test_keypair) (PayloadBytes [x61])
       (constant_world 200 [])
  = (Ok {| signature_type := lit "bittensor";
           signatory := lit "5Test";
           timestamp_ns := 1700000000000000000;
           signature := rev (Blake2b.blake2b
                               (be_digits 8 1700000000000000000 ++ [x61])) |},
     constant_world 200 []).
Proof.
  apply (proj1 (sign_returns_completed_signature ascii_runtime
                  (BittensorWalletSigner test_keypair) (PayloadBytes [x61])
                  (constant_world 200 []))
           (lit "5Test") (constant_world 200 [])
           (Blake2b.blake2b (be_digits 8 1700000000000000000 ++ [x61]))
           (rev (Blake2b.blake2b (be_digits 8 1700000000000000000 ++ [x61])))
           (constant_world 200 []));
    reflexivity.
Defined.

(** ** Job creation *)

Lemma validate_str_dict_of_env (env : dict str) :
  validate_str_dict (map (fun kv => (fst kv, JStr (snd kv))) env) = Some env.
Proof.
  induction env as [|[k v] env IH]; simpl; [reflexivity|]. now rewrite IH.
Qed.

Section CreateJob.

Variable rt : PyRuntime.
Variable model_validate_json : str -> option FacilitatorJobResponse.
Variable ExecutorClass : Type.
Variable executor_class_value : ExecutorClass -> str.
Variable InputVolume : Type.
Variable to_compute_horde_volume : InputVolume -> str -> JsonValue.
Variable OutputVolume : Type.
Variable to_compute_horde_output_upload : OutputVolume -> str -> JsonValue.

Let data := job_data ExecutorClass executor_class_value InputVolume to_compute_horde_volume
                     OutputVolume to_compute_horde_output_upload.
Let fields_of_job := signed_fields_of_job ExecutorClass executor_class_value InputVolume
                       to_compute_horde_volume OutputVolume to_compute_horde_output_upload.

Lemma from_facilitator_sdk_json_job_data self a :
  from_facilitator_sdk_json rt (data self a) = Ok (fields_of_job a)
  /\ dict_get (data self a) (lit "use_gpu") = Some (JBool true).
Proof.
  unfold data, job_data, fields_of_job, signed_fields_of_job, from_facilitator_sdk_json.
  pose proof (validate_str_dict_of_env
                (match arg_env _ _ _ a with Some e => e | None => [] end)) as Henv.
  set (env_items := map (fun kv : str * str => (fst kv, JStr (snd kv))) _) in *.
  set (env := match arg_env _ _ _ a with Some e => e | None => [] end) in *.
  set (args := join _ _).
  clearbody env_items env args.
  destruct (arg_input_volumes _ _ _ a) as [ins|], (arg_output_volumes _ _ _ a) as [outs|];
    cbn; rewrite Henv; split; reflexivity.
Qed.

(** C10: whatever the arguments of [create_job], the data it builds holds
    [use_gpu] set to true, the signed fields read from that data have
    [use_gpu] true, and it is the JSON text of those fields that [create_job]
    signs before it posts the data; no argument of [create_job] reaches the
    flag. *)
Theorem create_job_signs_use_gpu_true self a :
  dict_get (data self a) (lit "use_gpu") = Some (JBool true)
  /\ from_facilitator_sdk_json rt (data self a) = Ok (fields_of_job a)
  /\ use_gpu (fields_of_job a) = true
  /\ dict_get (match model_dump (fields_of_job a) with JDict items => items | _ => [] end)
              (lit "use_gpu") = Some (JBool true)
  /\ forall w,
       create_job rt model_validate_json ExecutorClass executor_class_value InputVolume
                  to_compute_horde_volume OutputVolume to_compute_horde_output_upload self a w
       = if arg_run_cross_validation _ _ _ a then
           (Raise (ValueError (lit "Cross validation is not supported yet, please call create_job with run_cross_validation=False")), w)
         else
           (signature <- sign rt (_signer self) (signed_payload rt (fields_of_job a)) ;;
            response <- _make_request self (lit "POST") (lit "/job-docker/")
                                      (Some (JDict (data self a))) None
                                      (Some (signature_to_headers signature default_prefix)) ;;
            match model_validate_json response with
            | Some job_response => ret (_from_response self job_response)
            | None =>
                raise (ComputeHordeError (lit "Compute Horde returned malformed response"))
            end) w.
Proof.
  destruct (from_facilitator_sdk_json_job_data self a) as [Hfields Hflag].
  split; [exact Hflag|]. split; [exact Hfields|]. split; [reflexivity|].
  split; [reflexivity|].
  intros w. unfold create_job, _get_signature_headers.
  destruct (arg_run_cross_validation _ _ _ a); [reflexivity|].
  fold data. unfold bind at 1 2. unfold lift. rewrite Hfields.
  unfold signed_payload, bind.
  destruct (sign rt (_signer self) _ w) as [[signature|e] w1]; reflexivity.
Qed.

End CreateJob.

(** ** Canonical bytes of the signed fields *)

Example model_dump_json_text rt :
  model_dump_json rt fields_ab
  = lit "{" ++ [34%N] ++ lit "executor_class" ++ [34%N] ++ lit ":" ++ [34%N]
    ++ lit "spin_up-4min.gpu-24gb" ++ [34%N] ++ lit "," ++ [34%N] ++ lit "docker_image"
    ++ [34%N] ++ lit ":" ++ [34%N] ++ lit "alpine:latest" ++ [34%N] ++ lit "," ++ [34%N]
    ++ lit "raw_script" ++ [34%N] ++ lit ":" ++ [34%N] ++ [34%N] ++ lit "," ++ [34%N]
    ++ lit "args" ++ [34%N] ++ lit ":" ++ [34%N] ++ lit "echo hi" ++ [34%N] ++ lit ","
    ++ [34%N] ++ lit "env" ++ [34%N] ++ lit ":{" ++ [34%N] ++ lit "a" ++ [34%N] ++ lit ":"
    ++ [34%N] ++ lit "1" ++ [34%N] ++ lit "," ++ [34%N] ++ lit "b" ++ [34%N] ++ lit ":"
    ++ [34%N] ++ lit "2" ++ [34%N] ++ lit "}," ++ [34%N] ++ lit "use_gpu" ++ [34%N]
    ++ lit ":true," ++ [34%N] ++ lit "volumes" ++ [34%N] ++ lit ":[]," ++ [34%N]
    ++ lit "uploads" ++ [34%N] ++ lit ":[]}".
Proof. reflexivity. Qed.

(** On the path of [_get_signature_headers] the bytes hashed are pydantic's
    text between quotes, escaped: sorting keys has nothing to sort. *)
Lemma signed_payload_bytes rt f :
  payload_bytes rt (signed_payload rt f)
  = Ok (ascii_bytes (py_encode_basestring_ascii (model_dump_json rt f))).
Proof.
  unfold signed_payload, payload_bytes, json_dumps_sort_keys. cbn [write encode_str].
  now rewrite encode_utf8_ascii by apply py_encode_basestring_ascii_ascii.
Qed.

(** C1 fails on the code.  Two [SignedFields] values that are equal, their
    [env] entries inserted as a, b in one and as b, a in the other, give
    different bytes to the digest on the path of [_get_signature_headers],
    which hands [sign] the JSON text pydantic wrote (a [str], items in
    insertion order): sorting the keys of a [str] does nothing.  The same
    values handed over as a dict, the way [signature_for_request] hands its
    payload, do give identical bytes. *)
Theorem signed_fields_bytes_depend_on_env_order rt :
  SignedFields_eqb fields_ab fields_ba = true
  /\ (exists b1 b2,
        payload_bytes rt (signed_payload rt fields_ab) = Ok b1
        /\ payload_bytes rt (signed_payload rt fields_ba) = Ok b2
        /\ b1 <> b2
        /\ nth_error b1 134 = Some x61 /\ nth_error b2 134 = Some x62
        /\ List.length b1 = 205%nat)
  /\ (exists h1 h2,
        hash_message_signature rt (signed_payload rt fields_ab)
          (provisional (BittensorWalletSigner test_keypair) (lit "5Test") 1) = Ok h1
        /\ hash_message_signature rt (signed_payload rt fields_ba)
             (provisional (BittensorWalletSigner test_keypair) (lit "5Test") 1) = Ok h2
        /\ h1 <> h2)
  /\ payload_bytes rt (PayloadJson (model_dump fields_ab))
     = payload_bytes rt (PayloadJson (model_dump fields_ba))
  /\ payload_bytes rt (PayloadJson (payload_from_request rt (lit "POST") (lit "/job-docker/")
                                                         [] (Some (model_dump fields_ab))))
     = payload_bytes rt (PayloadJson (payload_from_request rt (lit "POST") (lit "/job-docker/")
                                                           [] (Some (model_dump fields_ba)))).
Proof.
  split; [reflexivity|]. split; [|split].
  - eexists. eexists. split; [vm_compute; reflexivity|]. split; [vm_compute; reflexivity|].
    split; [discriminate|]. repeat split; reflexivity.
  - eexists. eexists. split; [vm_compute; reflexivity|]. split; [vm_compute; reflexivity|].
    discriminate.
  - split; vm_compute; reflexivity.
Qed.

(** ** Waiting for a job *)

Section Wait.

Local Open Scope Q_scope.

Variable validate : str -> option FacilitatorJobResponse.

Lemma wait_loop_terminal fuel timeout start job w :
  is_in_progress (status job) = false ->
  wait_loop validate (S fuel) timeout start job w = Some (Ok tt, job, w).
Proof. intros H. cbn [wait_loop]. now rewrite H. Qed.

Lemma wait_loop_timed_out fuel t start job w :
  is_in_progress (status job) = true ->
  t < now w - start ->
  wait_loop validate (S fuel) (Some t) start job w
  = Some (Raise (ComputeHordeJobTimeoutError (uuid job) t (status job)), job, w).
Proof.
  intros Hprog Hlate. cbn [wait_loop]. rewrite Hprog. cbv zeta.
  destruct (Qle_bool (now w - start) t) eqn:Hle; [|reflexivity].
  apply Qle_bool_iff in Hle. lra.
Qed.

Lemma wait_loop_step fuel timeout start job w job' w' :
  is_in_progress (status job) = true ->
  match timeout with Some t => now w - start <= t | None => True end ->
  refresh_from_facilitator validate job w = (Ok tt, job', w') ->
  wait_loop validate (S fuel) timeout start job w
  = wait_loop validate fuel timeout start job' (advance JOB_REFRESH_INTERVAL w').
Proof.
  intros Hprog Hearly Hrefresh. cbn [wait_loop]. rewrite Hprog, Hrefresh. cbv zeta.
  destruct timeout as [t|]; [|reflexivity].
  apply Qle_bool_iff in Hearly. now rewrite Hearly.
Qed.

(** A run that ends has ended well exactly when the status it leaves is
    terminal. *)
Lemma wait_loop_exit fuel :
  forall timeout start job w r job' w',
    wait_loop validate fuel timeout start job w = Some (r, job', w') ->
    (r = Ok tt <-> is_in_progress (status job') = false).
Proof.
  induction fuel as [|fuel IH]; intros timeout start job w r job' w'; [discriminate|].
  cbn [wait_loop]. destruct (is_in_progress (status job)) eqn:Hprog.
  - cbv zeta. rewrite refresh_run.
    assert (Hpoll :
              match get_job validate (_client job) (uuid job) w with
              | (Ok new_job, w1) =>
                  wait_loop validate fuel timeout start
                            (with_status job (status new_job) (result new_job))
                            (snd (sleep JOB_REFRESH_INTERVAL w1))
              | (Raise e, w1) => Some (Raise e, job, w1)
              end = Some (r, job', w') ->
              r = Ok tt <-> is_in_progress (status job') = false).
    { destruct (get_job validate (_client job) (uuid job) w) as [[new_job|e] w1].
      - apply IH.
      - intros H. injection H as <- <- <-. rewrite Hprog. split; discriminate. }
    destruct (get_job validate (_client job) (uuid job) w) as [[new_job|e] w1];
      (destruct timeout as [t|]; [|exact Hpoll]);
      (destruct (negb (Qle_bool (now w - start) t)); [|exact Hpoll]);
      intros H; injection H as <- <- <-; rewrite Hprog; split; discriminate.
  - intros H. injection H as <- <- <-. now split.
Qed.

Section NeverTerminal.

Variable w0 : World.
Variable job_uuid : str.
Hypothesis Hlatency : never_negative_latency w0.
Hypothesis Halive : always_in_progress validate w0 job_uuid.

Lemma refresh_in_progress job w :
  facilitator w = facilitator w0 ->
  uuid job = job_uuid ->
  exists job',
    refresh_from_facilitator validate job w
    = (Ok tt, job', exchange w (get_job_request (uuid job)))
    /\ is_in_progress (status job') = true
    /\ uuid job' = uuid job
    /\ last_reported validate (exchange w (get_job_request (uuid job))) = Some (status job').
Proof.
  intros Hfac Hjob.
  destruct (Halive (map fst (exchanges w)))
    as (code & text & r & Hout & Hcode & Hparse & Hprog).
  rewrite <- Hjob in Hout.
  assert (Hreply : outcome (reply_to w (get_job_request (uuid job))) = Response code text).
  { unfold reply_to. now rewrite Hfac. }
  eexists. split.
  - apply (refresh_success validate job w code text r); assumption.
  - repeat split; try assumption.
    unfold last_reported. cbn [exchange exchanges]. now rewrite Hreply, Hparse.
Qed.

Lemma inject_succ n : inject_Z (Z.of_nat (S n)) == inject_Z (Z.of_nat n) + 1.
Proof. rewrite Nat2Z.inj_succ, <- Z.add_1_r, inject_Z_plus. reflexivity. Qed.

Lemma wait_loop_times_out t start n :
  forall job w,
    facilitator w = facilitator w0 ->
    uuid job = job_uuid ->
    is_in_progress (status job) = true ->
    t - (now w - start) < 3 * inject_Z (Z.of_nat n) ->
    forall fuel, (n < fuel)%nat ->
      exists job' w',
        wait_loop validate fuel (Some t) start job w
        = Some (Raise (ComputeHordeJobTimeoutError (uuid job) t (status job')), job', w')
        /\ t < now w' - start
        /\ is_in_progress (status job') = true
        /\ ((job' = job /\ w' = w)
            \/ (last_reported validate w' = Some (status job')
                /\ now w' - last_latency w' - JOB_REFRESH_INTERVAL - start <= t)).
Proof.
  induction n as [|n IH]; intros job w Hfac Hjob Hprog Hbudget fuel Hfuel;
    (destruct fuel as [|fuel]; [lia|]).
  - exists job, w. change (inject_Z (Z.of_nat 0)) with 0 in Hbudget.
    assert (Hlate : t < now w - start) by lra.
    split; [now apply wait_loop_timed_out|]. repeat split; auto.
  - destruct (Qlt_le_dec t (now w - start)) as [Hlate|Hearly].
    + exists job, w. split; [now apply wait_loop_timed_out|]. repeat split; auto.
    + destruct (refresh_in_progress job w Hfac Hjob)
        as (job1 & Hrefresh & Hprog1 & Huuid & Hlast).
      rewrite (wait_loop_step fuel (Some t) start job w job1 _ Hprog Hearly Hrefresh).
      set (w1 := exchange w (get_job_request (uuid job))) in *.
      assert (Hnow : now (advance JOB_REFRESH_INTERVAL w1)
                     = now w + latency (reply_to w (get_job_request (uuid job)))
                       + JOB_REFRESH_INTERVAL) by reflexivity.
      assert (Hlat : 0 <= latency (reply_to w (get_job_request (uuid job)))).
      { unfold reply_to. rewrite Hfac. apply Hlatency. }
      rewrite inject_succ in Hbudget. unfold JOB_REFRESH_INTERVAL in *.
      destruct (IH job1 (advance 3 w1)) with (fuel := fuel)
        as (job' & w' & Hrun & Hdone & Hprog' & Hwhere);
        [exact Hfac | congruence | exact Hprog1 | rewrite Hnow; lra | lia |].
      exists job', w'. rewrite <- Huuid. split; [exact Hrun|].
      split; [exact Hdone|]. split; [exact Hprog'|]. right.
      destruct Hwhere as [[-> ->] | Hwhere]; [|exact Hwhere].
      split; [exact Hlast|].
      change (last_latency (advance 3 w1))
        with (latency (reply_to w (get_job_request (uuid job)))).
      rewrite Hnow. lra.
Qed.

End NeverTerminal.

Lemma budget_exists t : exists n, t < 3 * inject_Z (Z.of_nat n).
Proof.
  exists (Z.to_nat (Qfloor t + 1)).
  pose proof (Qlt_floor t) as Hfloor.
  destruct (Z.le_gt_cases (Qfloor t + 1) 0) as [Hneg|Hpos].
  - replace (Z.to_nat (Qfloor t + 1)) with 0%nat by lia.
    rewrite Zle_Qle in Hneg. change (inject_Z (Z.of_nat 0)) with 0.
    change (inject_Z 0) with 0 in Hneg. lra.
  - rewrite Z2Nat.id by lia.
    assert (0 <= inject_Z (Qfloor t + 1)).
    { change 0 with (inject_Z 0). rewrite <- Zle_Qle. lia. }
    lra.
Qed.

(** C4: when the facilitator keeps reporting a status that is in progress
    (and the clock does not run backwards), [wait] with a timeout ends, given
    fuel enough, by raising the job-timeout error, which carries the job's
    last status; it is raised at the first check of the loop at which the
    time elapsed since the call exceeds the timeout, and the job is left
    holding the status of the facilitator's latest reply (or untouched, when
    no reply was needed).  A run that ends has ended normally exactly when
    the status it leaves is terminal: a terminal status ends the loop at
    once and without error, whatever the timeout. *)
Theorem wait_times_out_or_ends_terminal job w :
  (forall t,
     is_in_progress (status job) = true ->
     never_negative_latency w ->
     always_in_progress validate w (uuid job) ->
     exists n, forall fuel, (n <= fuel)%nat ->
       exists job' w',
         wait validate fuel (Some t) job w
         = Some (Raise (ComputeHordeJobTimeoutError (uuid job) t (status job')), job', w')
         /\ t < now w' - now w
         /\ is_in_progress (status job') = true
         /\ ((job' = job /\ w' = w)
             \/ (last_reported validate w' = Some (status job')
                 /\ now w' - last_latency w' - JOB_REFRESH_INTERVAL - now w <= t)))
  /\ (forall fuel timeout r job' w',
        wait validate fuel timeout job w = Some (r, job', w') ->
        (r = Ok tt <-> is_in_progress (status job') = false))
  /\ (forall fuel timeout,
        is_in_progress (status job) = false ->
        wait validate (S fuel) timeout job w = Some (Ok tt, job, w))
  /\ (forall fuel timeout code text r,
        is_in_progress (status job) = true ->
        match timeout with Some t => 0 <= t | None => True end ->
        outcome (reply_to w (get_job_request (uuid job))) = Response code text ->
        is_success code = true ->
        validate text = Some r ->
        is_in_progress (response_status r) = false ->
        exists job',
          wait validate (S (S fuel)) timeout job w
          = Some (Ok tt, job',
                  advance JOB_REFRESH_INTERVAL (exchange w (get_job_request (uuid job))))
          /\ status job' = response_status r).
Proof.
  split; [|split; [|split]].
  - intros t Hprog Hlatency Halive.
    destruct (budget_exists t) as [n Hn].
    exists (S n). intros fuel Hfuel. unfold wait.
    apply (wait_loop_times_out w (uuid job) Hlatency Halive t (now w) n); auto; lra.
  - intros fuel timeout r job' w'. apply wait_loop_exit.
  - intros fuel timeout Hterm. now apply wait_loop_terminal.
  - intros fuel timeout code text r Hprog Hearly Hreply Hcode Hparse Hterm.
    pose proof (refresh_success validate job w code text r Hreply Hcode Hparse)
      as Hrefresh.
    assert (Hnow : match timeout with Some t => now w - now w <= t | None => True end).
    { destruct timeout as [t|]; [lra | exact I]. }
    eexists. unfold wait. split.
    + rewrite (wait_loop_step (S fuel) timeout (now w) job w _ _ Hprog Hnow Hrefresh).
      apply wait_loop_terminal. exact Hterm.
    + reflexivity.
Qed.

End Wait.

Example wait_on_pending_job_times_out :
  exists w',
    wait validate_status_name 5 (Some (1 # 100)) (test_job PENDING)
         (constant_world 200 (lit "PENDING"))
    = Some (Raise (ComputeHordeJobTimeoutError (lit "job-1") (1 # 100) PENDING),
            test_job PENDING, w')
    /\ List.length (exchanges w') = 1%nat
    /\ Qeq_bool (now w' - 1700000000) (31 # 10) = true.
Proof. eexists. split; [vm_compute; reflexivity|]. split; reflexivity. Qed.

Example wait_returns_when_completed :
  exists w',
    wait validate_status_name 5 (Some 60%Q) (test_job PENDING)
         (constant_world 200 (lit "COMPLETED"))
    = Some (Ok tt, test_job COMPLETED, w').
Proof. eexists. vm_compute. reflexivity. Qed.

Lemma wait_times_out_or_ends_terminal_witness :
  exists n, forall fuel, (n <= fuel)%nat ->
    exists job' w',
      wait validate_status_name fuel (Some (1 # 100)) (test_job PENDING)
           (constant_world 200 (lit "PENDING"))
      = Some (Raise (ComputeHordeJobTimeoutError (uuid (test_job PENDING)) (1 # 100)
                                                 (status job')),
              job', w')
      /\ (1 # 100 < now w' - now (constant_world 200 (lit "PENDING")))%Q
      /\ is_in_progress (status job') = true
      /\ ((job' = test_job PENDING /\ w' = constant_world 200 (lit "PENDING"))
          \/ (last_reported validate_status_name w' = Some (status job')
              /\ (now w' - last_latency w' - JOB_REFRESH_INTERVAL
                  - now (constant_world 200 (lit "PENDING")) <= 1 # 100)%Q)).
Proof.
  apply (proj1 (wait_times_out_or_ends_terminal validate_status_name (test_job PENDING)
                  (constant_world 200 (lit "PENDING")))).
  - reflexivity.
  - intros hist req. simpl. discriminate.
  - intros hist. exists 200, (lit "PENDING").
    exists {| response_uuid := lit "job-1"; response_status := PENDING;
              response_stdout := [] |}.
    repeat split; reflexivity.
Defined.

(* ===================================================================== *)
(** * Further properties of the code *)
(* ===================================================================== *)

(** ** base64: what is written is read back *)

Lemma all_bytes_complete x : existsb (Byte.eqb x) all_bytes = true.
Proof. destruct x; vm_compute; reflexivity. Qed.

Lemma for_all_bytes (p : byte -> bool) :
  forallb p all_bytes = true -> forall x, p x = true.
Proof.
  intros H x. rewrite forallb_forall in H. apply H.
  pose proof (all_bytes_complete x) as Hx.
  apply existsb_exists in Hx as (y & Hin & Heq).
  apply Byte.byte_dec_bl in Heq. now subst y.
Qed.

Lemma for_all_sextets (p : N -> bool) :
  forallb p (map N.of_nat (seq 0 64)) = true -> forall v, (v < 64)%N -> p v = true.
Proof.
  intros H v Hv. rewrite forallb_forall in H. apply H.
  rewrite <- (N2Nat.id v). apply in_map, in_seq. lia.
Qed.

(** The character written for a sextet is not the pad and reads back as the
    sextet. *)
Lemma b2a_code_reads_back v :
  (v < 64)%N ->
  (b2a_code v =? PAD)%N = false
  /\ table_a2b_base64 (b2a_code v) = Some v
  /\ (b2a_code v <? 128)%N = true.
Proof.
  intros Hv.
  pose proof (for_all_sextets
                (fun v => negb (b2a_code v =? PAD)%N
                          && match table_a2b_base64 (b2a_code v) with
                             | Some u => (u =? v)%N
                             | None => false
                             end
                          && (b2a_code v <? 128)%N)
                ltac:(vm_compute; reflexivity) v Hv) as H.
  cbv beta in H. apply andb_prop in H as [H H3]. apply andb_prop in H as [H1 H2].
  apply negb_true_iff in H1.
  destruct (table_a2b_base64 (b2a_code v)) as [u|]; [|discriminate].
  apply N.eqb_eq in H2. now subst u.
Qed.

(** The sextets of two neighbouring bytes put the first byte together again. *)
Lemma sextets_12 x y :
  let X := Byte.to_N x in
  let Y := Byte.to_N y in
  (sextet1 X < 64)%N /\ (sextet2 X Y < 64)%N
  /\ byte_of_N (N.lor (N.shiftl (sextet1 X) 2) (N.shiftr (sextet2 X Y) 4)) = x
  /\ N.land (sextet2 X Y) 15 = N.shiftr Y 4.
Proof.
  pose proof (for_all_bytes
    (fun x => forallb
       (fun y =>
          let X := Byte.to_N x in
          let Y := Byte.to_N y in
          (sextet1 X <? 64)%N && (sextet2 X Y <? 64)%N
          && Byte.eqb (byte_of_N (N.lor (N.shiftl (sextet1 X) 2) (N.shiftr (sextet2 X Y) 4))) x
          && (N.land (sextet2 X Y) 15 =? N.shiftr Y 4)%N) all_bytes)
    ltac:(vm_compute; reflexivity) x) as H.
  cbv beta in H. pose proof (for_all_bytes _ H y) as Hy. cbv beta zeta in Hy.
  apply andb_prop in Hy as [Hy H4]. apply andb_prop in Hy as [Hy H3].
  apply andb_prop in Hy as [H1 H2].
  cbv zeta. repeat split.
  - now apply N.ltb_lt.
  - now apply N.ltb_lt.
  - now apply Byte.byte_dec_bl.
  - now apply N.eqb_eq.
Qed.

Lemma sextets_23 y z :
  let Y := Byte.to_N y in
  let Z := Byte.to_N z in
  (sextet3 Y Z < 64)%N
  /\ byte_of_N (N.lor (N.shiftl (N.shiftr Y 4) 4) (N.shiftr (sextet3 Y Z) 2)) = y
  /\ N.land (sextet3 Y Z) 3 = N.shiftr Z 6.
Proof.
  pose proof (for_all_bytes
    (fun y => forallb
       (fun z =>
          let Y := Byte.to_N y in
          let Z := Byte.to_N z in
          (sextet3 Y Z <? 64)%N
          && Byte.eqb (byte_of_N (N.lor (N.shiftl (N.shiftr Y 4) 4) (N.shiftr (sextet3 Y Z) 2))) y
          && (N.land (sextet3 Y Z) 3 =? N.shiftr Z 6)%N) all_bytes)
    ltac:(vm_compute; reflexivity) y) as H.
  cbv beta in H. pose proof (for_all_bytes _ H z) as Hz. cbv beta zeta in Hz.
  apply andb_prop in Hz as [Hz H3]. apply andb_prop in Hz as [H1 H2].
  cbv zeta. repeat split.
  - now apply N.ltb_lt.
  - now apply Byte.byte_dec_bl.
  - now apply N.eqb_eq.
Qed.

Lemma sextets_34 z :
  let Z := Byte.to_N z in
  (sextet4 Z < 64)%N
  /\ byte_of_N (N.lor (N.shiftl (N.shiftr Z 6) 6) (sextet4 Z)) = z.
Proof.
  pose proof (for_all_bytes
    (fun z =>
       let Z := Byte.to_N z in
       (sextet4 Z <? 64)%N
       && Byte.eqb (byte_of_N (N.lor (N.shiftl (N.shiftr Z 6) 6) (sextet4 Z))) z)
    ltac:(vm_compute; reflexivity) z) as H.
  cbv beta zeta in H. apply andb_prop in H as [H1 H2].
  cbv zeta. split; [now apply N.ltb_lt | now apply Byte.byte_dec_bl].
Qed.

(** One step of the scan over a character written for a sextet. *)
Lemma a2b_loop_char v rest quad_pos leftchar pads out :
  (v < 64)%N ->
  a2b_loop (b2a_code v :: rest) quad_pos leftchar pads out
  = if (quad_pos =? 0)%N then a2b_loop rest 1%N v 0%N out
    else if (quad_pos =? 1)%N then
      a2b_loop rest 2%N (N.land v 15) 0%N
               (out ++ [byte_of_N (N.lor (N.shiftl leftchar 2) (N.shiftr v 4))])
    else if (quad_pos =? 2)%N then
      a2b_loop rest 3%N (N.land v 3) 0%N
               (out ++ [byte_of_N (N.lor (N.shiftl leftchar 4) (N.shiftr v 2))])
    else
      a2b_loop rest 0%N 0%N 0%N (out ++ [byte_of_N (N.lor (N.shiftl leftchar 6) v)]).
Proof.
  intros Hv. destruct (b2a_code_reads_back v Hv) as (Hpad & Htab & _).
  cbn [a2b_loop]. now rewrite Hpad, Htab.
Qed.

Lemma b64encode_codes_3 x y z rest :
  map Byte.to_N (b64encode (x :: y :: z :: rest))
  = b2a_code (sextet1 (Byte.to_N x))
    :: b2a_code (sextet2 (Byte.to_N x) (Byte.to_N y))
    :: b2a_code (sextet3 (Byte.to_N y) (Byte.to_N z))
    :: b2a_code (sextet4 (Byte.to_N z))
    :: map Byte.to_N (b64encode rest).
Proof. reflexivity. Qed.

Lemma b64encode_codes_1 x :
  map Byte.to_N (b64encode [x])
  = [b2a_code (sextet1 (Byte.to_N x)); b2a_code (sextet2 (Byte.to_N x) (Byte.to_N x00));
     PAD; PAD].
Proof.
  unfold sextet2. change (N.shiftr (Byte.to_N x00) 4) with 0%N. rewrite N.lor_0_r.
  reflexivity.
Qed.

Lemma b64encode_codes_2 x y :
  map Byte.to_N (b64encode [x; y])
  = [b2a_code (sextet1 (Byte.to_N x)); b2a_code (sextet2 (Byte.to_N x) (Byte.to_N y));
     b2a_code (sextet3 (Byte.to_N y) (Byte.to_N x00)); PAD].
Proof.
  unfold sextet3. change (N.shiftr (Byte.to_N x00) 6) with 0%N. rewrite N.lor_0_r.
  reflexivity.
Qed.

(** The scan over the text of [b64encode] appends the bytes encoded. *)
Lemma a2b_loop_b64encode_upto n :
  forall b out,
    (List.length b < n)%nat ->
    a2b_loop (map Byte.to_N (b64encode b)) 0%N 0%N 0%N out = Ok (out ++ b).
Proof.
  induction n as [|n IH]; intros b out Hn; [lia|].
  destruct b as [|x [|y [|z rest]]].
  - cbn. now rewrite app_nil_r.
  - destruct (sextets_12 x x00) as (H1 & H2 & Hx & _).
    rewrite b64encode_codes_1.
    rewrite !a2b_loop_char by assumption. cbn [N.eqb Pos.eqb].
    cbv zeta in Hx. rewrite Hx. reflexivity.
  - destruct (sextets_12 x y) as (H1 & H2 & Hx & Hl).
    destruct (sextets_23 y x00) as (H3 & Hy & _).
    rewrite b64encode_codes_2.
    rewrite !a2b_loop_char by assumption. cbn [N.eqb Pos.eqb].
    cbv zeta in Hx, Hl, Hy. rewrite Hx, Hl, Hy.
    cbn [a2b_loop]. cbn. now rewrite <- app_assoc.
  - destruct (sextets_12 x y) as (H1 & H2 & Hx & Hl).
    destruct (sextets_23 y z) as (H3 & Hy & Hl').
    destruct (sextets_34 z) as (H4 & Hz).
    rewrite b64encode_codes_3.
    rewrite !a2b_loop_char by assumption. cbn [N.eqb Pos.eqb].
    cbv zeta in Hx, Hl, Hy, Hl', Hz. rewrite Hx, Hl, Hy, Hl', Hz.
    rewrite IH by (cbn [List.length] in Hn; lia).
    now rewrite <- !app_assoc.
Qed.

Lemma b64decode_b64encode b : b64decode (b64encode b) = Ok b.
Proof.
  unfold b64decode. now rewrite (a2b_loop_b64encode_upto (S (List.length b))) by lia.
Qed.

Lemma byte_of_N_of_byte x : byte_of_N (Byte.to_N x) = x.
Proof.
  unfold byte_of_N. pose proof (Byte.to_N_bounded x).
  rewrite N.mod_small by lia. now rewrite Byte.of_to_N.
Qed.

Lemma b2a_code_alphabet v : (v < 64)%N -> is_alphabet (b2a_code v) = true.
Proof.
  intros Hv. destruct (b2a_code_reads_back v Hv) as (_ & Htab & _).
  unfold is_alphabet. now rewrite Htab.
Qed.

(** The text of [b64encode] is ASCII and valid base64. *)
Lemma b64encode_text_upto n :
  forall b,
    (List.length b < n)%nat ->
    all_ascii (map Byte.to_N (b64encode b)) = true
    /\ is_valid_base64_codes (map Byte.to_N (b64encode b)) = true.
Proof.
  induction n as [|n IH]; intros b Hn; [lia|].
  destruct b as [|x [|y [|z rest]]].
  - split; reflexivity.
  - destruct (sextets_12 x x00) as (H1 & H2 & _).
    rewrite b64encode_codes_1. unfold all_ascii, is_ascii. cbn [forallb is_valid_base64_codes].
    destruct (b2a_code_reads_back _ H1) as (_ & _ & A1).
    destruct (b2a_code_reads_back _ H2) as (_ & _ & A2).
    rewrite A1, A2, !b2a_code_alphabet by assumption. split; reflexivity.
  - destruct (sextets_12 x y) as (H1 & H2 & _).
    destruct (sextets_23 y x00) as (H3 & _).
    rewrite b64encode_codes_2. unfold all_ascii, is_ascii. cbn [forallb is_valid_base64_codes].
    destruct (b2a_code_reads_back _ H1) as (_ & _ & A1).
    destruct (b2a_code_reads_back _ H2) as (_ & _ & A2).
    destruct (b2a_code_reads_back _ H3) as (_ & _ & A3).
    rewrite A1, A2, A3, !b2a_code_alphabet by assumption. split; reflexivity.
  - destruct (sextets_12 x y) as (H1 & H2 & _).
    destruct (sextets_23 y z) as (H3 & _).
    destruct (sextets_34 z) as (H4 & _).
    destruct (IH rest) as [Hascii Hvalid]; [cbn [List.length] in Hn; lia|].
    rewrite b64encode_codes_3.
    destruct (b2a_code_reads_back _ H1) as (_ & _ & A1).
    destruct (b2a_code_reads_back _ H2) as (_ & _ & A2).
    destruct (b2a_code_reads_back _ H3) as (_ & _ & A3).
    destruct (b2a_code_reads_back _ H4) as (_ & _ & A4).
    split.
    + unfold all_ascii, is_ascii in *. cbn [forallb]. now rewrite A1, A2, A3, A4, Hascii.
    + assert (Hquad : forall tail,
                 is_valid_base64_codes tail = true ->
                 is_valid_base64_codes
                   (b2a_code (sextet1 (Byte.to_N x))
                    :: b2a_code (sextet2 (Byte.to_N x) (Byte.to_N y))
                    :: b2a_code (sextet3 (Byte.to_N y) (Byte.to_N z))
                    :: b2a_code (sextet4 (Byte.to_N z)) :: tail) = true).
      { intros tail Htail.
        destruct tail as [|t tail]; cbn [is_valid_base64_codes];
          rewrite !b2a_code_alphabet by assumption; [reflexivity | exact Htail]. }
      apply Hquad, Hvalid.
Qed.

Lemma signature_field_round_trip_parts (b : bytes) :
  encode_utf8 (decode_ascii (b64encode b)) = Some (b64encode b)
  /\ validate_signature (b64encode b) = Ok b.
Proof.
  destruct (b64encode_text_upto (S (List.length b)) b) as [Hascii _]; [lia|].
  split; [|apply b64decode_b64encode].
  unfold decode_ascii. rewrite encode_utf8_ascii by exact Hascii.
  unfold ascii_bytes. rewrite map_map. f_equal.
  rewrite <- (map_id (b64encode b)) at 2. apply map_ext. apply byte_of_N_of_byte.
Qed.

(** X1.  Round trip of the signature field: the text [serialize_signature]
    writes for any bytes is valid, padded base64; re-encoded to bytes and put
    through [validate_signature], as constructing a [Signature] from it does,
    it gives the same bytes back. *)
Theorem signature_field_round_trip (b : bytes) :
  is_valid_base64 (b64encode b) = true
  /\ encode_utf8 (serialize_signature b) = Some (b64encode b)
  /\ validate_signature (b64encode b) = Ok b
  /\ forall type who ts,
       new_Signature type who ts (b64encode b)
       = Ok {| signature_type := type; signatory := who; timestamp_ns := ts; signature := b |}.
Proof.
  destruct (b64encode_text_upto (S (List.length b)) b) as [_ Hvalid]; [lia|].
  destruct (signature_field_round_trip_parts b) as [Htext Hback].
  split; [exact Hvalid|]. split; [|split].
  - exact Htext.
  - exact Hback.
  - intros type who ts. unfold new_Signature, validate_signature.
    now rewrite b64decode_b64encode.
Qed.

(** ** Dictionaries *)

Lemma str_eqb_eq a : forall b, str_eqb a b = true <-> a = b.
Proof.
  induction a as [|x a IH]; intros [|y b]; simpl; split; try easy.
  - intros H. apply andb_prop in H as [Hx Ha]. apply N.eqb_eq in Hx.
    apply IH in Ha. now subst.
  - intros H. injection H as -> ->. unfold char_eqb. rewrite N.eqb_refl.
    now apply IH.
Qed.

Lemma str_eqb_refl a : str_eqb a a = true.
Proof. now apply str_eqb_eq. Qed.

Lemma str_eqb_sym a b : str_eqb a b = str_eqb b a.
Proof.
  destruct (str_eqb a b) eqn:Hab, (str_eqb b a) eqn:Hba; try reflexivity.
  - apply str_eqb_eq in Hab. subst. now rewrite str_eqb_refl in Hba.
  - apply str_eqb_eq in Hba. subst. now rewrite str_eqb_refl in Hab.
Qed.

Lemma str_eqb_app_prefix p a b : str_eqb (p ++ a) (p ++ b) = str_eqb a b.
Proof.
  induction p as [|x p IH]; simpl; [reflexivity|].
  unfold char_eqb. now rewrite N.eqb_refl.
Qed.

Lemma dict_get_set_same {V} (d : dict V) k v : dict_get (dict_set d k v) k = Some v.
Proof.
  induction d as [|[k' v'] d IH]; simpl.
  - now rewrite str_eqb_refl.
  - destruct (str_eqb k k') eqn:E; simpl; rewrite E; [reflexivity | exact IH].
Qed.

Lemma dict_get_set_other {V} (d : dict V) k v k' :
  str_eqb k' k = false -> dict_get (dict_set d k v) k' = dict_get d k'.
Proof.
  intros Hne. induction d as [|[k0 v0] d IH]; simpl.
  - now rewrite Hne.
  - destruct (str_eqb k k0) eqn:E; simpl.
    + apply str_eqb_eq in E. subst k0. now rewrite Hne.
    + now rewrite IH.
Qed.

(** ** The signature headers *)

(** X2.  Whatever the prefix, [signature_to_headers] gives four headers
    under four different names, each field is found under its name, the
    timestamp as its decimal text, and the text under the signature header
    decodes back to the signature bytes. *)
Theorem signature_to_headers_fields (s : Signature) (prefix : str) :
  dict_get (signature_to_headers s prefix) (prefix ++ lit "Signature-Type")
  = Some (signature_type s)
  /\ dict_get (signature_to_headers s prefix) (prefix ++ lit "Signatory")
     = Some (signatory s)
  /\ dict_get (signature_to_headers s prefix) (prefix ++ lit "Timestamp-NS")
     = Some (str_of_int (timestamp_ns s))
  /\ (exists text raw,
        dict_get (signature_to_headers s prefix) (prefix ++ lit "Signature") = Some text
        /\ encode_utf8 text = Some raw
        /\ validate_signature raw = Ok (signature s))
  /\ NoDup (map fst (signature_to_headers s prefix))
  /\ List.length (signature_to_headers s prefix) = 4%nat.
Proof.
  unfold signature_to_headers. cbn [dict_get].
  rewrite !str_eqb_app_prefix. cbn [str_eqb].
  destruct (signature_field_round_trip_parts (signature s)) as (Htext & Hback).
  repeat split; try reflexivity.
  - exists (decode_ascii (b64encode (signature s))), (b64encode (signature s)).
    change (str_eqb (lit "Signature") (lit "Signature-Type")) with false.
    change (str_eqb (lit "Signature") (lit "Signatory")) with false.
    change (str_eqb (lit "Signature") (lit "Timestamp-NS")) with false.
    rewrite str_eqb_refl. repeat split; assumption.
  - cbn [map fst].
    assert (Hne : forall a b, str_eqb a b = false -> prefix ++ a <> prefix ++ b).
    { intros a b Hab Heq. apply app_inv_head in Heq. subst.
      now rewrite str_eqb_refl in Hab. }
    repeat constructor; cbn [In]; intros H;
      repeat (destruct H as [H|H]; [revert H; apply Hne; reflexivity|]); exact H.
Qed.

(** ** The eight bytes of the timestamp *)

Lemma int_to_bytes_big_8 n ts :
  int_to_bytes_big n 8 = Some ts ->
  0 <= n < 2 ^ 64 /\ ts = be_digits 8 n.
Proof.
  intros H.
  destruct (Z_le_gt_dec 0 n) as [Hlo|Hlo], (Z_lt_ge_dec n (2 ^ 64)) as [Hhi|Hhi];
    try (rewrite timestamp_overflow in H by lia; discriminate).
  destruct (timestamp_to_bytes n (conj Hlo Hhi)) as (Hsome & _).
  split; [lia|]. rewrite Hsome in H.
  generalize dependent (be_digits 8 n). intros digits H.
  now injection H.
Qed.

(** ** What the signed action leaves out *)

Lemma skipn_length_app {A} (a b : list A) : skipn (List.length a) (a ++ b) = b.
Proof. induction a as [|x a IH]; [reflexivity | exact IH]. Qed.

Lemma scheme_host_len_of_parts rt scheme host path :
  scheme <> [] -> forallb (Re.is_word rt) scheme = true ->
  host <> [] -> forallb not_slash host = true ->
  (path = [] \/ exists r, path = chr "/" :: r) ->
  scheme_host_len rt (scheme ++ lit "://" ++ host ++ path)
  = Some (List.length scheme + 3 + List.length host)%nat.
Proof.
  intros Hs Hword Hh Hhost Hpath. unfold scheme_host_len.
  rewrite prefix_len_app by exact Hword.
  change (prefix_len (Re.is_word rt) (lit "://" ++ host ++ path)) with O.
  rewrite Nat.add_0_r.
  destruct scheme as [|c scheme]; [contradiction|].
  cbn [List.length]. change (S (List.length scheme)) with (List.length (c :: scheme)).
  rewrite skipn_length_app.
  change (after_separator (lit "://" ++ host ++ path)) with (Some (host ++ path)).
  cbv beta iota.
  rewrite prefix_len_app by exact Hhost.
  assert (prefix_len not_slash path = O) as ->.
  { destruct Hpath as [->|[r ->]]; reflexivity. }
  rewrite Nat.add_0_r.
  destruct host as [|d host]; [contradiction|]. reflexivity.
Qed.

Lemma reduced_url_of_path rt path :
  (path = [] \/ exists r, path = chr "/" :: r) ->
  Re.sub rt _REMOVE_URL_SCHEME_N_HOST_RE [] path = path.
Proof.
  intros Hpath. rewrite reduced_url_spec.
  destruct Hpath as [->|[r ->]]; reflexivity.
Qed.

Lemma reduced_url_of_parts rt scheme host path :
  scheme <> [] -> forallb (Re.is_word rt) scheme = true ->
  host <> [] -> forallb not_slash host = true ->
  (path = [] \/ exists r, path = chr "/" :: r) ->
  Re.sub rt _REMOVE_URL_SCHEME_N_HOST_RE [] (scheme ++ lit "://" ++ host ++ path) = path.
Proof.
  intros Hs Hword Hh Hhost Hpath. rewrite reduced_url_spec.
  rewrite scheme_host_len_of_parts by assumption.
  rewrite (app_assoc scheme), (app_assoc (scheme ++ lit "://")).
  replace (List.length scheme + 3 + List.length host)%nat
    with (List.length ((scheme ++ lit "://") ++ host))
    by (rewrite !length_app; reflexivity).
  apply skipn_length_app.
Qed.

(** X5.  The signed action names the path only: two requests that differ in
    scheme, host or headers and agree on method, path and body have the same
    payload, and [signature_for_request] treats them as one request. *)
Theorem signature_payload_ignores_host_and_headers rt signer method scheme host path
    headers headers' json :
  scheme <> [] -> forallb (Re.is_word rt) scheme = true ->
  host <> [] -> forallb not_slash host = true ->
  (path = [] \/ exists r, path = chr "/" :: r) ->
  signature_payload rt method (scheme ++ lit "://" ++ host ++ path) headers json
  = signature_payload rt method path headers' json
  /\ signature_for_request rt signer method (scheme ++ lit "://" ++ host ++ path) headers json
     = signature_for_request rt signer method path headers' json.
Proof.
  intros Hs Hword Hh Hhost Hpath.
  assert (signature_payload rt method (scheme ++ lit "://" ++ host ++ path) headers json
          = signature_payload rt method path headers' json) as Heq.
  { unfold signature_payload.
    rewrite reduced_url_of_parts by assumption.
    now rewrite reduced_url_of_path by assumption. }
  split; [exact Heq|].
  unfold signature_for_request, payload_from_request. now rewrite Heq.
Qed.

Lemma signature_payload_ignores_host_and_headers_witness :
  signature_payload ascii_runtime (lit "post") (lit "https" ++ lit "://" ++ lit "a.example" ++ lit "/jobs/")
                    [(lit "Authorization", lit "Token 1")] None
  = signature_payload ascii_runtime (lit "post") (lit "/jobs/") [] None
  /\ signature_for_request ascii_runtime (BittensorWalletSigner test_keypair) (lit "post")
       (lit "https" ++ lit "://" ++ lit "a.example" ++ lit "/jobs/")
       [(lit "Authorization", lit "Token 1")] None
     = signature_for_request ascii_runtime (BittensorWalletSigner test_keypair) (lit "post")
         (lit "/jobs/") [] None.
Proof.
  apply (signature_payload_ignores_host_and_headers ascii_runtime
           (BittensorWalletSigner test_keypair) (lit "post")
           (lit "https") (lit "a.example") (lit "/jobs/")
           [(lit "Authorization", lit "Token 1")] [] None);
    try reflexivity; try discriminate.
  right. eexists. reflexivity.
Defined.

(** X6.  Stripping is idempotent: what [signature_payload] keeps of a URL
    never starts with a scheme and a host of its own, so reducing the reduced
    URL changes nothing. *)
Theorem reduced_url_idempotent rt url :
  Re.sub rt _REMOVE_URL_SCHEME_N_HOST_RE []
         (Re.sub rt _REMOVE_URL_SCHEME_N_HOST_RE [] url)
  = Re.sub rt _REMOVE_URL_SCHEME_N_HOST_RE [] url.
Proof.
  rewrite (reduced_url_spec rt url).
  destruct (scheme_host_len rt url) as [n|] eqn:Hlen.
  - apply scheme_host_len_some in Hlen as (scheme & host & _ & _ & _ & _ & _ & Hrest).
    apply reduced_url_of_path. exact Hrest.
  - rewrite reduced_url_spec, Hlen. reflexivity.
Qed.

(** ** The fields that are signed *)

Lemma is_signed_key_false k :
  is_signed_key k = false ->
  str_eqb (lit "executor_class") k = false /\ str_eqb (lit "docker_image") k = false
  /\ str_eqb (lit "raw_script") k = false /\ str_eqb (lit "args") k = false
  /\ str_eqb (lit "env") k = false /\ str_eqb (lit "use_gpu") k = false
  /\ str_eqb (lit "volumes") k = false /\ str_eqb (lit "uploads") k = false.
Proof.
  unfold is_signed_key. cbn [existsb]. rewrite !orb_false_iff.
  rewrite !(str_eqb_sym k). tauto.
Qed.

Lemma dict_get_default_set_other {V} (d : dict V) k v k' default :
  str_eqb k' k = false ->
  dict_get_default (dict_set d k v) k' default = dict_get_default d k' default.
Proof. intros H. unfold dict_get_default. now rewrite dict_get_set_other. Qed.

Lemma from_facilitator_sdk_json_set_other rt data k v :
  is_signed_key k = false ->
  from_facilitator_sdk_json rt (dict_set data k v) = from_facilitator_sdk_json rt data.
Proof.
  intros Hk. apply is_signed_key_false in Hk as (H1 & H2 & H3 & H4 & H5 & H6 & H7 & H8).
  unfold from_facilitator_sdk_json.
  now rewrite !dict_get_default_set_other by assumption.
Qed.

(** X7.  Only eight keys of the job data are signed.  Setting any other key,
    [target_validator_hotkey] among them, changes neither the signed fields
    nor the signature headers computed for the data. *)
Theorem unsigned_keys_do_not_reach_the_signature rt self data k v :
  is_signed_key k = false ->
  from_facilitator_sdk_json rt (dict_set data k v) = from_facilitator_sdk_json rt data
  /\ _get_signature_headers rt self (dict_set data k v) = _get_signature_headers rt self data.
Proof.
  intros Hk. pose proof (from_facilitator_sdk_json_set_other rt data k v Hk) as Heq.
  split; [exact Heq|]. unfold _get_signature_headers. now rewrite Heq.
Qed.

Lemma unsigned_keys_do_not_reach_the_signature_witness :
  from_facilitator_sdk_json ascii_runtime
    (dict_set [(lit "env", JDict []); (lit "use_gpu", JBool true)]
              (lit "target_validator_hotkey") (JStr (lit "5Other")))
  = from_facilitator_sdk_json ascii_runtime [(lit "env", JDict []); (lit "use_gpu", JBool true)]
  /\ _get_signature_headers ascii_runtime test_client
       (dict_set [(lit "env", JDict []); (lit "use_gpu", JBool true)]
                 (lit "target_validator_hotkey") (JStr (lit "5Other")))
     = _get_signature_headers ascii_runtime test_client
         [(lit "env", JDict []); (lit "use_gpu", JBool true)].
Proof.
  apply (unsigned_keys_do_not_reach_the_signature ascii_runtime test_client
           [(lit "env", JDict []); (lit "use_gpu", JBool true)]
           (lit "target_validator_hotkey") (JStr (lit "5Other"))).
  reflexivity.
Defined.

Lemma validate_str_dict_some items env :
  validate_str_dict items = Some env ->
  items = map (fun kv => (fst kv, JStr (snd kv))) env.
Proof.
  revert env. induction items as [|[k v] items IH]; intros env H.
  - injection H as <-. reflexivity.
  - destruct v; try discriminate. cbn [validate_str_dict] in H.
    destruct (validate_str_dict items) as [env'|]; [|discriminate].
    injection H as <-. cbn [map fst snd]. now rewrite <- (IH env' eq_refl).
Qed.

(** X8.  What a [SignedFields] value read from job data tells about the
    data: [env] is required and is a dict whose values are all strings, kept
    in the order of the data; text under [docker_image], [raw_script] and
    [args] is taken as it is and a missing one reads as the empty string;
    missing [volumes] and [uploads] read as empty lists. *)
Theorem from_facilitator_sdk_json_reads rt data f :
  from_facilitator_sdk_json rt data = Ok f ->
  dict_get data (lit "env") = Some (JDict (map (fun kv => (fst kv, JStr (snd kv))) (env f)))
  /\ (forall key get,
        In (key, get) [(lit "docker_image", docker_image); (lit "raw_script", raw_script);
                       (lit "args", args)] ->
        (dict_get data key = None -> get f = [])
        /\ (forall s, dict_get data key = Some (JStr s) -> get f = s))
  /\ (forall key get,
        In (key, get) [(lit "volumes", volumes); (lit "uploads", uploads)] ->
        (dict_get data key = None -> get f = [])
        /\ (forall v, dict_get data key = Some v -> v = JList (get f))).
Proof.
  unfold from_facilitator_sdk_json, dict_get_default. intros H.
  destruct (validate_env _) as [e|] eqn:Henv; [|discriminate].
  destruct (validate_bool rt _) as [g|]; [|discriminate].
  destruct (validate_list _) as [vs|] eqn:Hvs; [|discriminate].
  destruct (validate_list _) as [us|] eqn:Hus in H; [|discriminate].
  injection H as <-. cbn [env docker_image raw_script args volumes uploads].
  split; [|split].
  - destruct (dict_get data (lit "env")) as [v|]; [|discriminate].
    destruct v; try discriminate. cbn [validate_env] in Henv.
    now rewrite (validate_str_dict_some _ _ Henv).
  - intros key get Hin. cbn [In] in Hin.
    destruct Hin as [Heq|[Heq|[Heq|[]]]]; injection Heq as <- <-;
      (split; [intros ->; reflexivity | intros s ->; reflexivity]).
  - intros key get Hin. cbn [In] in Hin.
    destruct Hin as [Heq|[Heq|[]]]; injection Heq as <- <-.
    + split.
      * intros Hnone. rewrite Hnone in Hvs. now injection Hvs as <-.
      * intros v Hv. rewrite Hv in Hvs. destruct v; try discriminate.
        now injection Hvs as <-.
    + split.
      * intros Hnone. rewrite Hnone in Hus. now injection Hus as <-.
      * intros v Hv. rewrite Hv in Hus. destruct v; try discriminate.
        now injection Hus as <-.
Qed.

Lemma from_facilitator_sdk_json_reads_witness :
  dict_get [(lit "env", JDict [(lit "A", JStr (lit "1"))]); (lit "use_gpu", JBool true)]
           (lit "env")
  = Some (JDict (map (fun kv => (fst kv, JStr (snd kv))) [(lit "A", lit "1")])).
Proof.
  apply (from_facilitator_sdk_json_reads ascii_runtime
           [(lit "env", JDict [(lit "A", JStr (lit "1"))]); (lit "use_gpu", JBool true)]
           {| executor_class := lit "None"; docker_image := []; raw_script := []; args := [];
              env := [(lit "A", lit "1")]; use_gpu := true; volumes := []; uploads := [] |}).
  reflexivity.
Defined.

(** ** How signing fails *)

Lemma payload_bytes_text rt (s : str) :
  payload_bytes rt (PayloadJson (JStr s))
  = Ok (ascii_bytes (py_encode_basestring_ascii s)).
Proof.
  unfold payload_bytes, json_dumps_sort_keys. cbn [write encode_str].
  now rewrite encode_utf8_ascii by apply py_encode_basestring_ascii_ascii.
Qed.

Lemma payload_bytes_ok rt payload :
  is_bytes_or_text payload = true -> exists pb, payload_bytes rt payload = Ok pb.
Proof.
  destruct payload as [b|v]; [now exists b|].
  destruct v; try discriminate. intros _. rewrite payload_bytes_text. eauto.
Qed.

Lemma hash_message_signature_raises rt payload sig e :
  is_bytes_or_text payload = true ->
  hash_message_signature rt payload sig = Raise e ->
  ~ (0 <= timestamp_ns sig < 2 ^ 64) /\ type_of e = cls_OverflowError.
Proof.
  intros Hkind. destruct (payload_bytes_ok rt payload Hkind) as [pb Hpb].
  unfold hash_message_signature. rewrite Hpb. cbn [bind_result].
  destruct (int_to_bytes_big (timestamp_ns sig) 8) as [ts|] eqn:Hts; [discriminate|].
  intros H. injection H as <-. split; [|reflexivity].
  intros Hrange. destruct (timestamp_to_bytes _ Hrange) as (Hsome & _). congruence.
Qed.

Lemma sign_run rt signer payload w :
  sign rt signer payload w
  = match get_signatory signer w with
    | (Ok who, w1) =>
        match hash_message_signature rt payload
                (provisional signer who (Qfloor (now w1 * 1000000000))) with
        | Ok digest =>
            match _sign signer digest w1 with
            | (Ok signed, w2) =>
                (Ok (set_signature (provisional signer who (Qfloor (now w1 * 1000000000)))
                                   signed), w2)
            | (Raise e, w2) => (Raise e, w2)
            end
        | Raise e => (Raise e, w1)
        end
    | (Raise e, w1) => (Raise e, w1)
    end.
Proof.
  unfold sign, bind, time_time_ns, lift, ret.
  destruct (get_signatory signer w) as [[who|e] w1]; [|reflexivity].
  change (new_Signature (scheme_signature_type signer) who (Qfloor (now w1 * 1000000000)) [])
    with (Ok (provisional signer who (Qfloor (now w1 * 1000000000)))).
  cbv iota beta.
  destruct (hash_message_signature rt payload _) as [digest|e]; [|reflexivity].
  destruct (_sign signer digest w1) as [[signed|e] w2]; reflexivity.
Qed.

(** X3.  On a payload of bytes or of text, the kinds the SDK signs, [sign]
    fails in three ways only: [get_signatory] raised, and nothing else was
    done; or the clock read in nanoseconds does not fit eight bytes, which
    raises [OverflowError] before [_sign] is called; or [_sign] raised on the
    digest.  Neither the text nor the bytes can make it fail. *)
Theorem sign_fails_only_by_signer_or_clock rt signer payload w e w' :
  is_bytes_or_text payload = true ->
  sign rt signer payload w = (Raise e, w') ->
  get_signatory signer w = (Raise e, w')
  \/ exists who w1,
       get_signatory signer w = (Ok who, w1)
       /\ ((w' = w1 /\ type_of e = cls_OverflowError
            /\ ~ (0 <= Qfloor (now w1 * 1000000000) < 2 ^ 64))
           \/ exists digest,
                hash_message_signature rt payload
                  (provisional signer who (Qfloor (now w1 * 1000000000))) = Ok digest
                /\ _sign signer digest w1 = (Raise e, w')).
Proof.
  intros Hkind. rewrite sign_run.
  destruct (get_signatory signer w) as [[who|e0] w1].
  - intros H. right. exists who, w1. split; [reflexivity|].
    destruct (hash_message_signature rt payload _) as [digest|e1] eqn:Hhash.
    + right. exists digest. split; [reflexivity|].
      destruct (_sign signer digest w1) as [[signed|e2] w2]; [discriminate|].
      injection H as <- <-. reflexivity.
    + left. injection H as <- <-.
      apply hash_message_signature_raises in Hhash as [Hrange Hcls]; [|exact Hkind].
      split; [reflexivity|]. split; [exact Hcls | exact Hrange].
  - intros H. left. injection H as <- <-. reflexivity.
Qed.

Lemma sign_fails_only_by_signer_or_clock_witness :
  get_signatory (BittensorWalletSigner test_keypair)
                {| now := -1; exchanges := []; facilitator := facilitator (constant_world 200 []) |}
  = (Raise (OverflowError (lit "can't convert negative int to unsigned")),
     {| now := -1; exchanges := []; facilitator := facilitator (constant_world 200 []) |})
  \/ exists who w1,
       get_signatory (BittensorWalletSigner test_keypair)
                     {| now := -1; exchanges := [];
                        facilitator := facilitator (constant_world 200 []) |}
       = (Ok who, w1)
       /\ (({| now := -1; exchanges := []; facilitator := facilitator (constant_world 200 []) |}
            = w1
            /\ type_of (OverflowError (lit "can't convert negative int to unsigned"))
               = cls_OverflowError
            /\ ~ (0 <= Qfloor (now w1 * 1000000000) < 2 ^ 64))
           \/ exists digest,
                hash_message_signature ascii_runtime (PayloadJson (JStr (lit "{}")))
                  (provisional (BittensorWalletSigner test_keypair) who
                               (Qfloor (now w1 * 1000000000))) = Ok digest
                /\ _sign (BittensorWalletSigner test_keypair) digest w1
                   = (Raise (OverflowError (lit "can't convert negative int to unsigned")),
                      {| now := -1; exchanges := [];
                         facilitator := facilitator (constant_world 200 []) |})).
Proof.
  apply (sign_fails_only_by_signer_or_clock ascii_runtime
           (BittensorWalletSigner test_keypair) (PayloadJson (JStr (lit "{}")))
           {| now := -1; exchanges := []; facilitator := facilitator (constant_world 200 []) |});
    reflexivity.
Defined.

(** X4.  The digest does not tell a text from the bytes that spell its JSON
    form: a text payload and the bytes of that text, quoted and escaped as
    [json.dumps] writes it, are hashed alike under every signature, and fail
    alike where the timestamp does not fit. *)
Theorem text_payload_hashes_as_its_json_bytes rt (s : str) sig :
  hash_message_signature rt (PayloadJson (JStr s)) sig
  = hash_message_signature rt
      (PayloadBytes (ascii_bytes (json_dumps_sort_keys (float_repr rt) (JStr s)))) sig
  /\ all_ascii (json_dumps_sort_keys (float_repr rt) (JStr s)) = true
  /\ json_dumps_sort_keys (float_repr rt) (JStr s) = py_encode_basestring_ascii s.
Proof.
  split; [|split].
  - unfold hash_message_signature. rewrite payload_bytes_text. reflexivity.
  - apply py_encode_basestring_ascii_ascii.
  - reflexivity.
Qed.

(** ** What a request for jobs gives *)

(** X9.  [get_job] makes one request whatever comes of it.  The job it
    returns is bound to the client, takes its id and status from the response
    and has a result exactly when the response has output; a status outside
    2xx and a body that does not validate raise [ComputeHordeError]; a failure
    of the transport is let through as it is and is no [ComputeHordeError]. *)
Theorem get_job_outcomes validate self job_uuid w :
  snd (get_job validate self job_uuid w) = exchange w (get_job_request job_uuid)
  /\ match fst (get_job validate self job_uuid w) with
     | Ok job =>
         exists code text r,
           outcome (reply_to w (get_job_request job_uuid)) = Response code text
           /\ 200 <= code <= 299
           /\ validate text = Some r
           /\ _client job = self
           /\ uuid job = response_uuid r
           /\ status job = response_status r
           /\ (result job = None <-> response_stdout r = [])
           /\ (forall out, result job = Some out -> stdout out = response_stdout r)
     | Raise e =>
         (isinstance e cls_ComputeHordeError = true
          /\ exists code text,
               outcome (reply_to w (get_job_request job_uuid)) = Response code text
               /\ (if is_success code then validate text = None /\ e = malformed_response
                   else e = status_error code))
         \/ (isinstance e cls_ComputeHordeError = false
             /\ exists msg,
                  outcome (reply_to w (get_job_request job_uuid)) = NoResponse msg
                  /\ e = httpx_RequestError msg)
     end.
Proof.
  rewrite get_job_run. cbn [fst snd]. split; [reflexivity|].
  destruct (outcome _) as [code text|msg] eqn:Hout.
  - destruct (is_success code) eqn:Hcode.
    + destruct (validate text) as [r|] eqn:Hparse.
      * exists code, text, r. split; [reflexivity|].
        unfold is_success in Hcode. apply andb_prop in Hcode as [Hlo Hhi].
        split; [lia|]. split; [exact Hparse|].
        unfold _from_response. cbn [_client uuid status result].
        repeat split; try reflexivity.
        -- destruct (response_stdout r); [reflexivity | discriminate].
        -- destruct (response_stdout r); [reflexivity | discriminate].
        -- intros out. destruct (response_stdout r); [discriminate|].
           intros H. injection H as <-. reflexivity.
      * left. split; [reflexivity|]. exists code, text. rewrite Hcode. now repeat split.
    + left. split; [reflexivity|]. exists code, text. rewrite Hcode. now split.
  - right. split; [reflexivity|]. now exists msg.
Qed.

(** X10.  [get_jobs] makes one request, for [/jobs/] with the page and the
    page size as parameters; it returns one job for each result of the
    response, in the order of the results, each bound to the client; and it
    fails as [get_job] does. *)
Theorem get_jobs_outcomes validate_jobs self page page_size w :
  snd (get_jobs validate_jobs self page page_size w)
  = exchange w (get_jobs_request page page_size)
  /\ match fst (get_jobs validate_jobs self page page_size w) with
     | Ok jobs =>
         exists code text results,
           outcome (reply_to w (get_jobs_request page page_size)) = Response code text
           /\ 200 <= code <= 299
           /\ validate_jobs text = Some results
           /\ List.length jobs = List.length results
           /\ map uuid jobs = map response_uuid results
           /\ map status jobs = map response_status results
           /\ Forall (fun job => _client job = self) jobs
     | Raise e =>
         (isinstance e cls_ComputeHordeError = true
          /\ exists code text,
               outcome (reply_to w (get_jobs_request page page_size)) = Response code text
               /\ (if is_success code then validate_jobs text = None /\ e = malformed_response
                   else e = status_error code))
         \/ (isinstance e cls_ComputeHordeError = false
             /\ exists msg,
                  outcome (reply_to w (get_jobs_request page page_size)) = NoResponse msg
                  /\ e = httpx_RequestError msg)
     end.
Proof.
  unfold get_jobs, bind. rewrite _make_request_run. cbv zeta.
  fold (get_jobs_request page page_size).
  destruct (outcome _) as [code text|msg] eqn:Hout.
  - destruct (is_success code) eqn:Hcode.
    + destruct (validate_jobs text) as [results|] eqn:Hparse.
      * cbn [fst snd ret]. split; [reflexivity|].
        exists code, text, results. split; [reflexivity|].
        unfold is_success in Hcode. apply andb_prop in Hcode as [Hlo Hhi].
        split; [lia|]. split; [exact Hparse|].
        split; [apply length_map|].
        split; [now rewrite map_map|]. split; [now rewrite map_map|].
        apply Forall_forall. intros job Hin.
        apply in_map_iff in Hin as (r & <- & _). reflexivity.
      * cbn [fst snd raise]. split; [reflexivity|].
        left. split; [reflexivity|]. exists code, text. rewrite Hcode. now repeat split.
    + cbn [fst snd]. split; [reflexivity|].
      left. split; [reflexivity|]. exists code, text. rewrite Hcode. now split.
  - cbn [fst snd]. split; [reflexivity|].
    right. split; [reflexivity|]. now exists msg.
Qed.

(** ** More on waiting *)

Section MoreWait.

Local Open Scope Q_scope.

Variable validate : str -> option FacilitatorJobResponse.

Lemma get_job_world job_uuid self w :
  snd (get_job validate self job_uuid w) = exchange w (get_job_request job_uuid).
Proof. now rewrite get_job_run. Qed.

Lemma latency_kept w w' :
  facilitator w' = facilitator w -> never_negative_latency w -> never_negative_latency w'.
Proof. intros Hfac H hist req. rewrite Hfac. apply H. Qed.

(** Whatever a run of the loop does, it keeps the job's id and client, asks
    the facilitator for that job only, and leaves the facilitator as it
    is. *)
Lemma wait_loop_invariants fuel :
  forall timeout start job w r job' w',
    wait_loop validate fuel timeout start job w = Some (r, job', w') ->
    uuid job' = uuid job
    /\ _client job' = _client job
    /\ facilitator w' = facilitator w
    /\ (exists news,
          exchanges w' = news ++ exchanges w
          /\ Forall (fun x => fst x = get_job_request (uuid job)) news)
    /\ (never_negative_latency w -> now w <= now w').
Proof.
  induction fuel as [|fuel IH]; intros timeout start job w r job' w'; [discriminate|].
  assert (Hstay : Some (r, job', w') = Some (r, job', w') -> job' = job -> w' = w ->
                  uuid job' = uuid job
                  /\ _client job' = _client job
                  /\ facilitator w' = facilitator w
                  /\ (exists news,
                        exchanges w' = news ++ exchanges w
                        /\ Forall (fun x => fst x = get_job_request (uuid job)) news)
                  /\ (never_negative_latency w -> now w <= now w')).
  { intros _ -> ->. repeat split; try reflexivity.
    - exists []. split; [reflexivity | constructor].
    - intros _. lra. }
  cbn [wait_loop]. destruct (is_in_progress (status job)) eqn:Hprog.
  - cbv zeta. rewrite refresh_run.
    assert (Hpoll :
              match get_job validate (_client job) (uuid job) w with
              | (Ok new_job, w1) =>
                  wait_loop validate fuel timeout start
                            (with_status job (status new_job) (result new_job))
                            (snd (sleep JOB_REFRESH_INTERVAL w1))
              | (Raise e, w1) => Some (Raise e, job, w1)
              end = Some (r, job', w') ->
              uuid job' = uuid job
              /\ _client job' = _client job
              /\ facilitator w' = facilitator w
              /\ (exists news,
                    exchanges w' = news ++ exchanges w
                    /\ Forall (fun x => fst x = get_job_request (uuid job)) news)
              /\ (never_negative_latency w -> now w <= now w')).
    { pose proof (get_job_world (uuid job) (_client job) w) as Hworld.
      destruct (get_job validate (_client job) (uuid job) w) as [[new_job|e] w1];
        cbn [snd] in Hworld; subst w1.
      - intros Hrun. apply IH in Hrun as (Huuid & Hclient & Hfac & (news & Hnews & Hall) & Hnow).
        split; [exact Huuid|]. split; [exact Hclient|]. split; [exact Hfac|]. split.
        + exists (news ++ [(get_job_request (uuid job),
                            reply_to w (get_job_request (uuid job)))]).
          split; [rewrite Hnews, <- app_assoc; reflexivity|].
          apply Forall_app. split; [exact Hall|]. constructor; [reflexivity | constructor].
        + intros Hlat.
          assert (Hstep : 0 <= latency (reply_to w (get_job_request (uuid job))))
            by apply Hlat.
          specialize (Hnow (latency_kept w _ eq_refl Hlat)).
          change (now (snd (sleep JOB_REFRESH_INTERVAL
                                  (exchange w (get_job_request (uuid job))))))
            with (now w + latency (reply_to w (get_job_request (uuid job))) + 3) in Hnow.
          lra.
      - intros H. injection H as <- <- <-.
        repeat split; try reflexivity.
        + exists [(get_job_request (uuid job), reply_to w (get_job_request (uuid job)))].
          split; [reflexivity|]. constructor; [reflexivity | constructor].
        + intros Hlat.
          assert (Hstep : 0 <= latency (reply_to w (get_job_request (uuid job))))
            by apply Hlat.
          change (now (exchange w (get_job_request (uuid job))))
            with (now w + latency (reply_to w (get_job_request (uuid job)))).
          lra. }
    destruct (get_job validate (_client job) (uuid job) w) as [[new_job|e] w1];
      (destruct timeout as [t|]; [|exact Hpoll]);
      (destruct (negb (Qle_bool (now w - start) t)); [|exact Hpoll]);
      intros H; injection H as <- <- <-; now apply Hstay.
  - intros H. injection H as <- <- <-. now apply Hstay.
Qed.

(** X11.  A run of [wait] that ends, however it ends, has kept the job's id
    and client, has sent nothing but requests for that job, and has not seen
    the clock go back if no round trip takes negative time: waiting never
    submits, creates or lists anything. *)
Theorem wait_only_asks_for_its_job fuel timeout job w r job' w' :
  wait validate fuel timeout job w = Some (r, job', w') ->
  uuid job' = uuid job
  /\ _client job' = _client job
  /\ (exists news,
        exchanges w' = news ++ exchanges w
        /\ Forall (fun x => fst x = get_job_request (uuid job)) news)
  /\ (never_negative_latency w -> now w <= now w').
Proof.
  intros Hrun. unfold wait in Hrun.
  apply wait_loop_invariants in Hrun as (Huuid & Hclient & _ & Hnews & Hnow).
  repeat split; assumption.
Qed.



Lemma wait_loop_forever w0 job_uuid start fuel :
  always_in_progress validate w0 job_uuid ->
  forall job w,
    facilitator w = facilitator w0 ->
    uuid job = job_uuid ->
    is_in_progress (status job) = true ->
    wait_loop validate fuel None start job w = None.
Proof.
  intros Halive. induction fuel as [|fuel IH]; intros job w Hfac Hjob Hprog; [reflexivity|].
  destruct (refresh_in_progress validate w0 job_uuid Halive job w Hfac Hjob)
    as (job1 & Hrefresh & Hprog1 & Huuid & _).
  rewrite (wait_loop_step validate fuel None start job w job1 _ Hprog I Hrefresh).
  apply IH; [exact Hfac | congruence | exact Hprog1].
Qed.

(** X13.  Without a timeout, [wait] does not return as long as the
    facilitator keeps reporting the job in progress: whatever the number of
    rounds allowed, the loop is still running when they are used up. *)
Theorem wait_without_timeout_never_returns job w :
  is_in_progress (status job) = true ->
  always_in_progress validate w (uuid job) ->
  forall fuel, wait validate fuel None job w = None.
Proof.
  intros Hprog Halive fuel. unfold wait.
  now apply (wait_loop_forever w (uuid job) (now w) fuel Halive).
Qed.

End MoreWait.

Lemma wait_only_asks_for_its_job_witness :
  uuid (test_job COMPLETED) = uuid (test_job PENDING)
  /\ _client (test_job COMPLETED) = _client (test_job PENDING)
  /\ (exists news,
        exchanges (advance JOB_REFRESH_INTERVAL
                     (exchange (constant_world 200 (lit "COMPLETED"))
                               (get_job_request (lit "job-1"))))
        = news ++ exchanges (constant_world 200 (lit "COMPLETED"))
        /\ Forall (fun x => fst x = get_job_request (uuid (test_job PENDING))) news)
  /\ (never_negative_latency (constant_world 200 (lit "COMPLETED")) ->
      (now (constant_world 200 (lit "COMPLETED"))
       <= now (advance JOB_REFRESH_INTERVAL
                 (exchange (constant_world 200 (lit "COMPLETED"))
                           (get_job_request (lit "job-1")))))%Q).
Proof.
  apply (wait_only_asks_for_its_job validate_status_name 5 (Some 60%Q) (test_job PENDING)
           (constant_world 200 (lit "COMPLETED")) (Ok tt)).
  vm_compute. reflexivity.
Defined.


Lemma wait_without_timeout_never_returns_witness :
  wait validate_status_name 1000 None (test_job PENDING)
       (constant_world 200 (lit "PENDING")) = None.
Proof.
  apply (wait_without_timeout_never_returns validate_status_name (test_job PENDING)
           (constant_world 200 (lit "PENDING"))).
  - reflexivity.
  - intros hist. exists 200, (lit "PENDING").
    exists {| response_uuid := lit "job-1"; response_status := PENDING;
              response_stdout := [] |}.
    repeat split; reflexivity.
Defined.

(** ** More on job creation *)

Section MoreCreateJob.

Variable rt : PyRuntime.
Variable model_validate_json : str -> option FacilitatorJobResponse.
Variable ExecutorClass : Type.
Variable executor_class_value : ExecutorClass -> str.
Variable InputVolume : Type.
Variable to_compute_horde_volume : InputVolume -> str -> JsonValue.
Variable OutputVolume : Type.
Variable to_compute_horde_output_upload : OutputVolume -> str -> JsonValue.

(** X14.  [create_job] reads seven of its eleven arguments.  Two calls that
    agree on the executor class, the image, the arguments, the environment,
    the two kinds of volumes and the cross-validation flag do the same,
    whatever [job_namespace], [artifacts_dir], [deposition_comparison_method]
    and [trusted_output_volumes] are: none of these is signed or sent. *)
Theorem create_job_ignores_four_arguments self
    (a b : CreateJobArgs ExecutorClass InputVolume OutputVolume) :
  arg_executor_class _ _ _ a = arg_executor_class _ _ _ b ->
  arg_docker_image _ _ _ a = arg_docker_image _ _ _ b ->
  arg_args _ _ _ a = arg_args _ _ _ b ->
  arg_env _ _ _ a = arg_env _ _ _ b ->
  arg_input_volumes _ _ _ a = arg_input_volumes _ _ _ b ->
  arg_output_volumes _ _ _ a = arg_output_volumes _ _ _ b ->
  arg_run_cross_validation _ _ _ a = arg_run_cross_validation _ _ _ b ->
  job_data ExecutorClass executor_class_value InputVolume to_compute_horde_volume
           OutputVolume to_compute_horde_output_upload self a
  = job_data ExecutorClass executor_class_value InputVolume to_compute_horde_volume
             OutputVolume to_compute_horde_output_upload self b
  /\ create_job rt model_validate_json ExecutorClass executor_class_value InputVolume
                to_compute_horde_volume OutputVolume to_compute_horde_output_upload self a
     = create_job rt model_validate_json ExecutorClass executor_class_value InputVolume
                  to_compute_horde_volume OutputVolume to_compute_horde_output_upload self b.
Proof.
  intros Hclass Himage Hargs Henv Hin Hout Hcross.
  assert (Hdata :
            job_data ExecutorClass executor_class_value InputVolume to_compute_horde_volume
                     OutputVolume to_compute_horde_output_upload self a
            = job_data ExecutorClass executor_class_value InputVolume to_compute_horde_volume
                       OutputVolume to_compute_horde_output_upload self b).
  { unfold job_data. now rewrite Hclass, Himage, Hargs, Henv, Hin, Hout. }
  split; [exact Hdata|]. unfold create_job. now rewrite Hcross, Hdata.
Qed.

End MoreCreateJob.

Lemma create_job_ignores_four_arguments_witness :
  job_data str (fun s => s) unit (fun _ _ => JNull) unit (fun _ _ => JNull) test_client
    {| arg_executor_class := lit "spin_up-4min.gpu-24gb"; arg_job_namespace := lit "SN123.0";
       arg_docker_image := lit "alpine:latest"; arg_args := None; arg_env := None;
       arg_artifacts_dir := Some (lit "/artifacts"); arg_input_volumes := None;
       arg_output_volumes := None; arg_run_cross_validation := false;
       arg_deposition_comparison_method := None; arg_trusted_output_volumes := None |}
  = job_data str (fun s => s) unit (fun _ _ => JNull) unit (fun _ _ => JNull) test_client
      {| arg_executor_class := lit "spin_up-4min.gpu-24gb"; arg_job_namespace := lit "other";
         arg_docker_image := lit "alpine:latest"; arg_args := None; arg_env := None;
         arg_artifacts_dir := None; arg_input_volumes := None;
         arg_output_volumes := None; arg_run_cross_validation := false;
         arg_deposition_comparison_method := None; arg_trusted_output_volumes := None |}
  /\ create_job ascii_runtime validate_status_name str (fun s => s) unit (fun _ _ => JNull)
                unit (fun _ _ => JNull) test_client
       {| arg_executor_class := lit "spin_up-4min.gpu-24gb"; arg_job_namespace := lit "SN123.0";
          arg_docker_image := lit "alpine:latest"; arg_args := None; arg_env := None;
          arg_artifacts_dir := Some (lit "/artifacts"); arg_input_volumes := None;
          arg_output_volumes := None; arg_run_cross_validation := false;
          arg_deposition_comparison_method := None; arg_trusted_output_volumes := None |}
     = create_job ascii_runtime validate_status_name str (fun s => s) unit (fun _ _ => JNull)
                  unit (fun _ _ => JNull) test_client
         {| arg_executor_class := lit "spin_up-4min.gpu-24gb"; arg_job_namespace := lit "other";
            arg_docker_image := lit "alpine:latest"; arg_args := None; arg_env := None;
            arg_artifacts_dir := None; arg_input_volumes := None;
            arg_output_volumes := None; arg_run_cross_validation := false;
            arg_deposition_comparison_method := None; arg_trusted_output_volumes := None |}.
Proof.
  apply (create_job_ignores_four_arguments ascii_runtime validate_status_name str
           (fun s => s) unit (fun _ _ => JNull) unit (fun _ _ => JNull) test_client);
    reflexivity.
Defined.

(** ** The signature headers of a client *)

(** X15.  The headers a client computes for job data, whenever it computes
    them: the data validated as signed fields; the type is [bittensor]; the
    signatory is the address of the hotkey the client was built with; the
    timestamp is the clock in nanoseconds, which fits eight bytes; and the
    signature is the base64 text of what that hotkey signed, which is the
    digest of the timestamp followed by the JSON text of the fields, quoted.
    The token, the queue, the validator and the URL of the client play no
    part. *)
Theorem client_signature_headers rt hotkey token validator queue url data w h w' :
  _get_signature_headers rt (new_ComputeHordeClient hotkey token validator queue url) data w
  = (Ok h, w') ->
  exists f signed,
    from_facilitator_sdk_json rt data = Ok f
    /\ 0 <= Qfloor (now w * 1000000000) < 2 ^ 64
    /\ keypair_sign hotkey
         (Blake2b.blake2b (be_digits 8 (Qfloor (now w * 1000000000))
                           ++ ascii_bytes (py_encode_basestring_ascii (model_dump_json rt f))))
         w = (Ok signed, w')
    /\ h = [ (lit "X-CH-Signature-Type", lit "bittensor");
             (lit "X-CH-Signatory", ss58_address hotkey);
             (lit "X-CH-Timestamp-NS", str_of_int (Qfloor (now w * 1000000000)));
             (lit "X-CH-Signature", serialize_signature signed) ].
Proof.
  unfold _get_signature_headers, bind, lift, ret.
  destruct (from_facilitator_sdk_json rt data) as [f|e]; [|discriminate].
  rewrite sign_run. cbn [new_ComputeHordeClient _signer BittensorWalletSigner get_signatory
                           _sign ret].
  unfold hash_message_signature.
  change (PayloadJson (JStr (model_dump_json rt f))) with (signed_payload rt f).
  rewrite signed_payload_bytes. cbn [bind_result provisional timestamp_ns].
  destruct (int_to_bytes_big (Qfloor (now w * 1000000000)) 8) as [ts|] eqn:Hts;
    [|discriminate].
  apply int_to_bytes_big_8 in Hts as [Hrange ->].
  cbn [Blake2b.digest Blake2b.update Blake2b.new Blake2b.fed app].
  destruct (keypair_sign hotkey _ w) as [[signed|e] w2] eqn:Hsign; [|discriminate].
  intros H. injection H as <- <-.
  exists f, signed. split; [reflexivity|]. split; [exact Hrange|]. split; [exact Hsign|].
  reflexivity.
Qed.

Lemma client_signature_headers_witness :
  exists f signed,
    from_facilitator_sdk_json ascii_runtime [(lit "env", JDict []); (lit "use_gpu", JBool true)]
    = Ok f
    /\ 0 <= Qfloor (now (constant_world 200 []) * 1000000000) < 2 ^ 64
    /\ keypair_sign test_keypair
         (Blake2b.blake2b (be_digits 8 (Qfloor (now (constant_world 200 []) * 1000000000))
                           ++ ascii_bytes (py_encode_basestring_ascii
                                             (model_dump_json ascii_runtime f))))
         (constant_world 200 []) = (Ok signed, constant_world 200 [])
    /\ match fst (_get_signature_headers ascii_runtime test_client
                    [(lit "env", JDict []); (lit "use_gpu", JBool true)]
                    (constant_world 200 [])) with
       | Ok h => h
       | Raise _ => []
       end
       = [ (lit "X-CH-Signature-Type", lit "bittensor");
           (lit "X-CH-Signatory", ss58_address test_keypair);
           (lit "X-CH-Timestamp-NS",
            str_of_int (Qfloor (now (constant_world 200 []) * 1000000000)));
           (lit "X-CH-Signature", serialize_signature signed) ].
Proof.
  apply (client_signature_headers ascii_runtime test_keypair (lit "token") None None
           DEFAULT_FACILITATOR_URL [(lit "env", JDict []); (lit "use_gpu", JBool true)]
           (constant_world 200 [])).
  vm_compute. reflexivity.
Defined.
